(** * Planner server: grade calculation, GPA aggregation and the note store

    A shallow embedding of [Backend/server.js].

    - JavaScript numbers are IEEE 754 binary64 values: they are modelled by
      Rocq's primitive floats, whose operations are specified by
      [SpecFloat] (comparisons that are false on NaN, additions and
      products rounded to nearest).
    - Text is held as the bytes of its UTF-8 encoding, the way the string
      literals of this file hold it.
    - The MongoDB note collection is a finite map from object ids to
      documents; the grade-record collection is a list in storage order,
      the order in which the GPA handler folds over it.
    - A handler is a function from the request (the resolved user id, the
      parameters and the body) and the collection to the response and the
      new collection.  A field of a note request is what the schema path
      makes of it: absent, null, a value of the path's type, or a value
      that does not cast; the [:id] of a route is the object id it
      denotes, or none when it denotes none.
    - Mongoose is modelled as documented: a default fills a path that is
      [undefined] only, [trim] applies to every string set on the path and
      to the path's value in a filter, [required] rejects an absent, null
      or empty string, an update runs no validator and stores null where
      it is given null, a value that does not cast makes the operation
      throw, and a query on [{ _id, userId }] matches the document with
      that id when it has that owner. *)

From Stdlib Require Import Floats ZArith Ascii DecimalString.
From stdpp Require Import gmap strings list fin_maps sorting.

Local Open Scope string_scope.

(** ** JavaScript values used by the handlers *)

Module JS.

(** [x >= y] on numbers: false as soon as one side is NaN. *)
Definition ge (x y : float) : bool := PrimFloat.leb y x.

(** ToBoolean on a number: [+0], [-0] and NaN are falsy. *)
Definition truthy (x : float) : bool :=
  negb (PrimFloat.eqb x 0 || PrimFloat.is_nan x).

(** ToBoolean on a value that is [undefined]/[null] or a string. *)
Definition Boolean (v : option string) : bool :=
  match v with
  | Some s => negb (String.eqb s "")
  | None => false
  end.

(** [v === s] for a value that is [undefined] or a string. *)
Definition strict_eq (v : option string) (s : string) : bool :=
  match v with
  | Some t => String.eqb t s
  | None => false
  end.

(** *** [String.prototype.trim]

    The white space and the line terminators that [trim] strips from both
    ends of a string.  In UTF-8, TAB, LF, VT, FF, CR and SP take one byte;
    U+00A0 takes two; U+1680, U+2000 to U+200A, U+2028, U+2029, U+202F,
    U+205F, U+3000 and U+FEFF take three. *)
Definition isWhiteSpace (c : ascii) : bool :=
  let n := N_of_ascii c in
  ((9 <=? n)%N && (n <=? 13)%N) || (n =? 32)%N.

Definition isWhiteSpace2 (a b : ascii) : bool :=
  ((N_of_ascii a =? 194) && (N_of_ascii b =? 160))%N.

Definition isWhiteSpace3 (a b c : ascii) : bool :=
  let a := N_of_ascii a in
  let b := N_of_ascii b in
  let c := N_of_ascii c in
  ((a =? 225) && (b =? 154) && (c =? 128)
   || (a =? 226) && (b =? 128)
      && ((128 <=? c) && (c <=? 138) || (c =? 168) || (c =? 169) || (c =? 175))
   || (a =? 226) && (b =? 129) && (c =? 159)
   || (a =? 227) && (b =? 128) && (c =? 128)
   || (a =? 239) && (b =? 187) && (c =? 191))%N.

(** Removes the white space a string begins with; [w2] and [w3] tell the
    encodings of two and of three bytes. *)
Fixpoint strip (w2 : ascii -> ascii -> bool) (w3 : ascii -> ascii -> ascii -> bool)
    (s : string) : string :=
  match s with
  | "" => ""
  | String a r =>
      if isWhiteSpace a then strip w2 w3 r
      else match r with
           | "" => s
           | String b r' =>
               if w2 a b then strip w2 w3 r'
               else match r' with
                    | "" => s
                    | String c r'' => if w3 a b c then strip w2 w3 r'' else s
                    end
           end
  end.

Definition trimStart (s : string) : string := strip isWhiteSpace2 isWhiteSpace3 s.

(** From the end, the bytes of an encoding are met last byte first. *)
Definition trimEnd (s : string) : string :=
  String.rev (strip (fun b a => isWhiteSpace2 a b) (fun c b a => isWhiteSpace3 a b c)
                (String.rev s)).

Definition trim (s : string) : string := trimEnd (trimStart s).

(** *** [Number.prototype.toFixed(2)] *)

(** The text of a number.  [Number::toString] on magnitudes of [1e21] and
    above yields exponent notation; its digits play no role here and the
    text is kept symbolic. *)
Inductive numtext : Type :=
  | Digits (s : string)
  | ToStringOf (x : float).

(** The integer [n] for which [n / 100 - m * 2^e] is closest to zero, the
    larger one on a tie. *)
Definition nearest_hundredth (m : positive) (e : Z) : Z :=
  let num := (100 * Z.pos m)%Z in
  match e with
  | Z0 => num
  | Zpos p => (num * 2 ^ Zpos p)%Z
  | Zneg p => ((2 * num + 2 ^ Zpos p) / 2 ^ (Zpos p + 1))%Z
  end.

Definition decimal (n : Z) : string :=
  NilZero.string_of_uint (N.to_uint (Z.to_N n)).

Definition zeros (k : nat) : string := String.concat "" (replicate k "0").

(** Steps 10.b to 10.d of [toFixed] with [f = 2]: pad the digits of [n] to
    three characters and put the point before the last two. *)
Definition fixed2 (n : Z) : string :=
  let m := decimal n in
  let k := String.length m in
  let m := if (k <=? 2)%nat then zeros (3 - k) ++ m else m in
  let k := String.length m in
  String.substring 0 (k - 2) m ++ "." ++ String.substring (k - 2) 2 m.

Definition toFixed2 (x : float) : numtext :=
  match Prim2SF x with
  | S754_nan => Digits "NaN"
  | S754_infinity s => Digits (if s then "-Infinity" else "Infinity")
  | S754_zero _ => Digits (fixed2 0)
  | S754_finite s m e =>
      if ge (PrimFloat.abs x) 1e21 then ToStringOf x
      else Digits ((if s then "-" else "") ++ fixed2 (nearest_hundredth m e))
  end.

(** A JSON field that holds a number or the text of one. *)
Inductive value : Type :=
  | Num (x : float)
  | Text (t : numtext).

End JS.

(** ** Grade calculation functions *)

Definition getGPA (percentage : float) : float :=
  if JS.ge percentage 85 then 4.0
  else if JS.ge percentage 75 then 3.75
  else if JS.ge percentage 70 then 3.5
  else if JS.ge percentage 65 then 3.0
  else if JS.ge percentage 60 then 2.5
  else if JS.ge percentage 50 then 2.0
  else 0.0.

Definition getGrade (percentage : float) : string :=
  if JS.ge percentage 85 then "A+"
  else if JS.ge percentage 75 then "A"
  else if JS.ge percentage 70 then "B+"
  else if JS.ge percentage 65 then "B"
  else if JS.ge percentage 60 then "C+"
  else if JS.ge percentage 50 then "C"
  else "F".

(** The threshold table of the specification: one row per band. *)
Inductive band : Type := APlus | A | BPlus | B | CPlus | C | F.

Definition letter (b : band) : string :=
  match b with
  | APlus => "A+" | A => "A" | BPlus => "B+" | B => "B"
  | CPlus => "C+" | C => "C" | F => "F"
  end.

Definition points (b : band) : float :=
  match b with
  | APlus => 4.0 | A => 3.75 | BPlus => 3.5 | B => 3.0
  | CPlus => 2.5 | C => 2.0 | F => 0.0
  end.

(** The first row, from the top, whose lower bound the score reaches. *)
Definition spec_band (score : float) : band :=
  if JS.ge score 85 then APlus
  else if JS.ge score 75 then A
  else if JS.ge score 70 then BPlus
  else if JS.ge score 65 then B
  else if JS.ge score 60 then CPlus
  else if JS.ge score 50 then C
  else F.

(** The lower bound of a band, and the lower bound of the band above it. *)
Definition lower (b : band) : option float :=
  match b with
  | APlus => Some 85 | A => Some 75 | BPlus => Some 70 | B => Some 65
  | CPlus => Some 60 | C => Some 50 | F => None
  end%float.

Definition upper (b : band) : option float :=
  match b with
  | APlus => None | A => Some 85 | BPlus => Some 75 | B => Some 70
  | CPlus => Some 65 | C => Some 60 | F => Some 50
  end%float.

(** [lower b <= score < upper b], a missing bound constraining nothing. *)
Definition in_band (b : band) (score : float) : bool :=
  from_option (fun lo => PrimFloat.leb lo score) true (lower b)
  && from_option (fun hi => PrimFloat.ltb score hi) true (upper b).

(** ** Schemas *)

(** Object ids ([_id]), opaque and assigned when a document is created. *)
Definition oid : Type := N.

(** Responses of a handler: a JSON body, a [{message}] body, an empty body,
    or none at all when the handler's promise rejects outside a [try]. *)
Inductive response (A : Type) : Type :=
  | Json (status : N) (body : A)
  | Message (status : N) (message : string)
  | Empty (status : N)
  | Rejected.
Arguments Json {A} status body.
Arguments Message {A} status message.
Arguments Empty {A} status.
Arguments Rejected {A}.

(** A field of the body of a note request, as the schema path of type [A]
    it is written to reads it: [undefined] (the key is absent), [null], a
    value the path accepts ([v] is the value after the cast: on a
    [String] path the text of a string, of a number or of a boolean), or a
    value the path does not cast (an array on a [String] path, a text
    that names no boolean on a [Boolean] path), on which Mongoose throws a
    CastError. *)
Module Field.

Inductive t (A : Type) : Type :=
  | Undefined
  | Null
  | Value (v : A)
  | Invalid.
Arguments Undefined {A}.
Arguments Null {A}.
Arguments Value {A} v.
Arguments Invalid {A}.

(** [f !== undefined] *)
Definition defined {A} (f : t A) : bool :=
  match f with
  | Undefined => false
  | _ => true
  end.

Definition castable {A} (f : t A) : bool :=
  match f with
  | Invalid => false
  | _ => true
  end.

(** The value of a field that has one. *)
Definition value {A} (f : t A) : option A :=
  match f with
  | Value v => Some v
  | _ => None
  end.

End Field.

(** The [required] validator on a string path: present and not empty. *)
Definition required (v : option string) : bool := JS.Boolean v.

(** A stored note; [None] is [null].  The paths an update can set hold
    null once an update has stored it there, and [courseTag] also when
    the note was created with a null tag. *)
Module Note.

Record t : Type := mk {
  title : option string;
  content : option string;
  courseTag : option string;
  isPinned : option bool;
  isArchived : option bool;
  isDeleted : option bool;
  userId : string;
  createdAt : Z
}.

End Note.

Module GradeRecord.

Record t : Type := mk {
  userId : string;
  course : string;
  score : float;
  creditHours : float;
  grade : string;
  gpa : float;
  createdAt : Z
}.

End GradeRecord.

(** ** Notes management *)

(** The notes collection: documents by [_id]. *)
Abbreviation NoteCollection := (gmap oid Note.t).

(** A stored document together with its [_id], as queries return it. *)
Definition doc : Type := oid * Note.t.

(** *** Queries *)

(** The filter object of [GET /api/notes] and [GET /api/tags]: an absent
    key constrains nothing. *)
Record NoteFilter : Type := mkFilter {
  f_userId : string;
  f_isDeleted : option bool;
  f_isArchived : option bool;
  f_courseTag : option string
}.

(** A key of the filter matches the stored value equal to it; a stored
    null equals no boolean and no string. *)
Definition key_matches {A} (eqb : A -> A -> bool) (k : option A) (v : option A) : bool :=
  match k with
  | Some x => from_option (fun y => eqb y x) false v
  | None => true
  end.

Definition matches (f : NoteFilter) (n : Note.t) : bool :=
  String.eqb (Note.userId n) (f_userId f)
  && key_matches Bool.eqb (f_isDeleted f) (Note.isDeleted n)
  && key_matches Bool.eqb (f_isArchived f) (Note.isArchived n)
  && key_matches String.eqb (f_courseTag f) (Note.courseTag n).

(** The filter as Mongoose sends it: cast to the schema, which on the
    [courseTag] path runs the [trim] setter. *)
Definition cast_filter (f : NoteFilter) : NoteFilter :=
  {| f_userId := f_userId f; f_isDeleted := f_isDeleted f;
     f_isArchived := f_isArchived f; f_courseTag := JS.trim <$> f_courseTag f |}.

(** [Note.find(filter)] *)
Definition find (f : NoteFilter) (c : NoteCollection) : list doc :=
  filter (fun d => matches (cast_filter f) d.2 = true) (map_to_list c).

(** The place of a value of [isPinned] in the order MongoDB sorts by:
    null below [false] below [true]. *)
Definition pin_rank (v : option bool) : N :=
  match v with
  | None => 0
  | Some false => 1
  | Some true => 2
  end.

(** The order of [.sort({ isPinned: -1, createdAt: -1 })]: the higher
    [isPinned] first, then the later [createdAt] first. *)
Definition sort_leb (a b : doc) : bool :=
  if (pin_rank (Note.isPinned a.2) =? pin_rank (Note.isPinned b.2))%N
  then (Note.createdAt b.2 <=? Note.createdAt a.2)%Z
  else (pin_rank (Note.isPinned b.2) <? pin_rank (Note.isPinned a.2))%N.

Definition sort_le (a b : doc) : Prop := sort_leb a b = true.

Global Instance sort_le_dec a b : Decision (sort_le a b).
Proof. unfold sort_le. apply _. Defined.

Definition sort (l : list doc) : list doc := merge_sort sort_le l.

(** The filter built by [GET /api/notes] from [req.query]. *)
Definition notes_filter (uid : string) (view courseTag : option string) : NoteFilter :=
  let filter := {| f_userId := uid; f_isDeleted := None; f_isArchived := None;
                   f_courseTag := None |} in
  if JS.strict_eq view "deleted" then
    {| f_userId := f_userId filter; f_isDeleted := Some true;
       f_isArchived := f_isArchived filter; f_courseTag := f_courseTag filter |}
  else if JS.strict_eq view "archive" then
    {| f_userId := f_userId filter; f_isDeleted := Some false;
       f_isArchived := Some true; f_courseTag := f_courseTag filter |}
  else if JS.Boolean courseTag then
    {| f_userId := f_userId filter; f_isDeleted := Some false;
       f_isArchived := Some false; f_courseTag := courseTag |}
  else
    {| f_userId := f_userId filter; f_isDeleted := Some false;
       f_isArchived := Some false; f_courseTag := f_courseTag filter |}.

(** [GET /api/notes] *)
Definition get_notes (uid : string) (view courseTag : option string) (c : NoteCollection)
  : response (list doc) :=
  let filter := notes_filter uid view courseTag in
  let notes := sort (find filter c) in
  Json 200 notes.

(** [Note.distinct("courseTag", filter)]: the values of the field over the
    matching documents, each once. *)
Definition distinct_courseTag (f : NoteFilter) (c : NoteCollection) : list (option string) :=
  remove_dups (map (fun d : doc => Note.courseTag d.2) (find f c)).

(** [tags.filter(Boolean)] *)
Definition filter_Boolean (tags : list (option string)) : list string :=
  omap (fun v => if JS.Boolean v then v else None) tags.

(** [GET /api/tags] *)
Definition get_tags (uid : string) (c : NoteCollection) : response (list string) :=
  let tags := distinct_courseTag
                {| f_userId := uid; f_isDeleted := Some false;
                   f_isArchived := Some false; f_courseTag := None |} c in
  Json 200 (filter_Boolean tags).

(** *** Creation *)

(** The fields [POST /api/notes] reads from [req.body]. *)
Record NoteBody : Type := mkNoteBody {
  b_title : Field.t string;
  b_content : Field.t string;
  b_courseTag : Field.t string
}.

(** The schema's [courseTag] path in a new document: the default
    ["General"] on [undefined], null kept, [trim] on a text; nothing when
    the value does not cast. *)
Definition cast_courseTag (v : Field.t string) : option (option string) :=
  match v with
  | Field.Undefined => Some (Some "General")
  | Field.Null => Some None
  | Field.Value s => Some (Some (JS.trim s))
  | Field.Invalid => None
  end.

(** [new Note({title, content, courseTag, userId})] with the schema's
    defaults; [None] when [save] fails: a required path is missing, null
    or empty, or a value does not cast. *)
Definition new_Note (body : NoteBody) (uid : string) (now : Z) : option Note.t :=
  if required (Field.value (b_title body)) && required (Field.value (b_content body))
     && required (Some uid) then
    match cast_courseTag (b_courseTag body) with
    | Some courseTag =>
        Some {| Note.title := Field.value (b_title body);
                Note.content := Field.value (b_content body);
                Note.courseTag := courseTag;
                Note.isPinned := Some false;
                Note.isArchived := Some false;
                Note.isDeleted := Some false;
                Note.userId := uid;
                Note.createdAt := now |}
    | None => None
    end
  else None.

(** [POST /api/notes].  [id] is the object id generated for the document
    and [now] the clock; an [_id] already stored makes the insert fail. *)
Definition post_notes (uid : string) (body : NoteBody) (id : oid) (now : Z) (c : NoteCollection)
  : response doc * NoteCollection :=
  match new_Note body uid now with
  | Some newNote =>
      match c !! id with
      | None => (Json 201 (id, newNote), <[id := newNote]> c)
      | Some _ => (Rejected, c)
      end
  | None => (Rejected, c)
  end.

(** *** Update and deletion *)

(** The fields [PUT /api/notes/:id] reads from [req.body], and the
    [$set] document it builds, where [Field.Undefined] is a key that is
    not there. *)
Record NoteFields : Type := mkFields {
  u_title : Field.t string;
  u_content : Field.t string;
  u_courseTag : Field.t string;
  u_isPinned : Field.t bool;
  u_isArchived : Field.t bool;
  u_isDeleted : Field.t bool
}.

Definition no_fields : NoteFields :=
  mkFields Field.Undefined Field.Undefined Field.Undefined
    Field.Undefined Field.Undefined Field.Undefined.

(** [updateFields.x = v] *)
Definition with_title (u : NoteFields) (v : Field.t string) : NoteFields :=
  {| u_title := v; u_content := u_content u; u_courseTag := u_courseTag u;
     u_isPinned := u_isPinned u; u_isArchived := u_isArchived u; u_isDeleted := u_isDeleted u |}.
Definition with_content (u : NoteFields) (v : Field.t string) : NoteFields :=
  {| u_title := u_title u; u_content := v; u_courseTag := u_courseTag u;
     u_isPinned := u_isPinned u; u_isArchived := u_isArchived u; u_isDeleted := u_isDeleted u |}.
Definition with_courseTag (u : NoteFields) (v : Field.t string) : NoteFields :=
  {| u_title := u_title u; u_content := u_content u; u_courseTag := v;
     u_isPinned := u_isPinned u; u_isArchived := u_isArchived u; u_isDeleted := u_isDeleted u |}.
Definition with_isPinned (u : NoteFields) (v : Field.t bool) : NoteFields :=
  {| u_title := u_title u; u_content := u_content u; u_courseTag := u_courseTag u;
     u_isPinned := v; u_isArchived := u_isArchived u; u_isDeleted := u_isDeleted u |}.
Definition with_isArchived (u : NoteFields) (v : Field.t bool) : NoteFields :=
  {| u_title := u_title u; u_content := u_content u; u_courseTag := u_courseTag u;
     u_isPinned := u_isPinned u; u_isArchived := v; u_isDeleted := u_isDeleted u |}.
Definition with_isDeleted (u : NoteFields) (v : Field.t bool) : NoteFields :=
  {| u_title := u_title u; u_content := u_content u; u_courseTag := u_courseTag u;
     u_isPinned := u_isPinned u; u_isArchived := u_isArchived u; u_isDeleted := v |}.

(** A field given a value of its type. *)
Definition set_title (u : NoteFields) (v : string) : NoteFields :=
  with_title u (Field.Value v).
Definition set_content (u : NoteFields) (v : string) : NoteFields :=
  with_content u (Field.Value v).
Definition set_courseTag (u : NoteFields) (v : string) : NoteFields :=
  with_courseTag u (Field.Value v).
Definition set_isPinned (u : NoteFields) (v : bool) : NoteFields :=
  with_isPinned u (Field.Value v).
Definition set_isDeleted (u : NoteFields) (v : bool) : NoteFields :=
  with_isDeleted u (Field.Value v).

(** [if (x !== undefined) updateFields.x = x], once per field. *)
Definition updateFields (body : NoteFields) : NoteFields :=
  let updateFields := no_fields in
  let updateFields := if Field.defined (u_title body)
                      then with_title updateFields (u_title body) else updateFields in
  let updateFields := if Field.defined (u_content body)
                      then with_content updateFields (u_content body) else updateFields in
  let updateFields := if Field.defined (u_courseTag body)
                      then with_courseTag updateFields (u_courseTag body) else updateFields in
  let updateFields := if Field.defined (u_isPinned body)
                      then with_isPinned updateFields (u_isPinned body) else updateFields in
  let updateFields := if Field.defined (u_isArchived body)
                      then with_isArchived updateFields (u_isArchived body) else updateFields in
  let updateFields := if Field.defined (u_isDeleted body)
                      then with_isDeleted updateFields (u_isDeleted body) else updateFields in
  updateFields.

(** Every value of the update casts to the type of its path. *)
Definition castable (upd : NoteFields) : bool :=
  Field.castable (u_title upd) && Field.castable (u_content upd)
  && Field.castable (u_courseTag upd) && Field.castable (u_isPinned upd)
  && Field.castable (u_isArchived upd) && Field.castable (u_isDeleted upd).

(** [$set] on one path: a key of the update replaces the stored value, by
    null or by the value the setter [set] makes of the given one; without
    the key the stored value stays. *)
Definition set_path {A} (set : A -> A) (stored : option A) (f : Field.t A) : option A :=
  match f with
  | Field.Null => None
  | Field.Value v => Some (set v)
  | _ => stored
  end.

(** [$set] on one document; the [courseTag] path trims. *)
Definition apply_set (upd : NoteFields) (n : Note.t) : Note.t :=
  {| Note.title := set_path (fun v => v) (Note.title n) (u_title upd);
     Note.content := set_path (fun v => v) (Note.content n) (u_content upd);
     Note.courseTag := set_path JS.trim (Note.courseTag n) (u_courseTag upd);
     Note.isPinned := set_path (fun v => v) (Note.isPinned n) (u_isPinned upd);
     Note.isArchived := set_path (fun v => v) (Note.isArchived n) (u_isArchived upd);
     Note.isDeleted := set_path (fun v => v) (Note.isDeleted n) (u_isDeleted upd);
     Note.userId := Note.userId n;
     Note.createdAt := Note.createdAt n |}.

(** What a query by [_id] gives: [Some] of its result, or [None] when
    Mongoose throws a CastError before it reaches the collection. *)
Definition thrown (A : Type) : Type := option A.

(** [Note.findOneAndUpdate({ _id, userId }, { $set }, { new: true })]: the
    updated document, or [null] when no document has that id and owner.
    [id] is the object id [req.params.id] denotes, [None] when the text
    denotes none ([abc], say); the filter does not cast then, nor the
    update when one of its values does not. *)
Definition findOneAndUpdate (id : option oid) (uid : string) (upd : NoteFields)
    (c : NoteCollection) : thrown (option doc * NoteCollection) :=
  match id with
  | Some id =>
      if castable upd then
        Some match c !! id with
             | Some n =>
                 if String.eqb (Note.userId n) uid
                 then let n' := apply_set upd n in (Some (id, n'), <[id := n']> c)
                 else (None, c)
             | None => (None, c)
             end
      else None
  | None => None
  end.

(** [Note.findOneAndDelete({ _id, userId })] *)
Definition findOneAndDelete (id : option oid) (uid : string) (c : NoteCollection)
  : thrown (option doc * NoteCollection) :=
  match id with
  | Some id =>
      Some match c !! id with
           | Some n =>
               if String.eqb (Note.userId n) uid
               then (Some (id, n), delete id c)
               else (None, c)
           | None => (None, c)
           end
  | None => None
  end.

(** [PUT /api/notes/:id] *)
Definition put_note (uid : string) (id : option oid) (body : NoteFields) (c : NoteCollection)
  : response doc * NoteCollection :=
  match findOneAndUpdate id uid (updateFields body) c with
  | Some (Some updatedNote, c') => (Json 200 updatedNote, c')
  | Some (None, c') => (Message 404 "Note not found or access denied", c')
  | None => (Message 400 "Update error", c)
  end.

(** [DELETE /api/notes/:id]: moves the note to the trash. *)
Definition delete_note (uid : string) (id : option oid) (c : NoteCollection)
  : response doc * NoteCollection :=
  match findOneAndUpdate id uid (set_isDeleted no_fields true) c with
  | Some (Some noteToTrash, c') => (Empty 204, c')
  | Some (None, c') => (Message 404 "Note not found or access denied", c')
  | None => (Message 500 "Deletion error", c)
  end.

(** [DELETE /api/notes/:id/permanent] *)
Definition delete_note_permanent (uid : string) (id : option oid) (c : NoteCollection)
  : response doc * NoteCollection :=
  match findOneAndDelete id uid c with
  | Some (Some deletedNote, c') => (Empty 204, c')
  | Some (None, c') => (Message 404 "Note not found or access denied", c')
  | None => (Message 500 "Permanent deletion error", c)
  end.

(** ** Grade records *)

(** The grade-record collection, in storage order. *)
Abbreviation GradeCollection := (list (oid * GradeRecord.t)).

(** [req.body] of [POST /api/grades]; [None] is an absent key. *)
Record GradeBody : Type := mkGradeBody {
  b_course : option string;
  b_score : option float;
  b_creditHours : option float
}.

(** ToNumber on a value that is [undefined] or a number. *)
Definition to_number (v : option float) : float := default nan v.

(** [POST /api/grades]: the grade and the grade point are computed from
    the score and stored with the record; a missing required path, or an
    [_id] already stored, makes [save] throw. *)
Definition post_grades (uid : string) (body : GradeBody) (id : oid) (now : Z)
    (c : GradeCollection) : response (oid * GradeRecord.t) * GradeCollection :=
  let grade := getGrade (to_number (b_score body)) in
  let gpa := getGPA (to_number (b_score body)) in
  match b_score body, b_creditHours body with
  | Some score, Some creditHours =>
      if required (Some uid) && required (b_course body)
         && negb (bool_decide (id ∈ c.*1)) then
        let newRecord :=
          {| GradeRecord.userId := uid;
             GradeRecord.course := default "" (b_course body);
             GradeRecord.score := score;
             GradeRecord.creditHours := creditHours;
             GradeRecord.grade := grade;
             GradeRecord.gpa := gpa;
             GradeRecord.createdAt := now |} in
        (Json 201 (id, newRecord), (c ++ [(id, newRecord)])%list)
      else (Message 500 "Error saving grade record", c)
  | _, _ => (Message 500 "Error saving grade record", c)
  end.

(** The accumulator of the [reduce] in [GET /api/gpa]. *)
Record totals : Type := mkTotals {
  totalGPA : float;
  totalCredit : float
}.

Definition reduce_step (acc : totals) (record : GradeRecord.t) : totals :=
  {| totalGPA := totalGPA acc + GradeRecord.gpa record * GradeRecord.creditHours record;
     totalCredit := totalCredit acc + GradeRecord.creditHours record |}.

Definition reduce (records : list GradeRecord.t) : totals :=
  fold_left reduce_step records {| totalGPA := 0; totalCredit := 0 |}.

Definition finalGPA (acc : totals) : float :=
  if JS.truthy (totalCredit acc) then totalGPA acc / totalCredit acc else 0.

(** The body of the GPA response. *)
Record GpaBody : Type := mkGpaBody {
  gpa : JS.value;
  creditTotal : float
}.

(** The computation of [GET /api/gpa] over the records found. *)
Definition cumulativeGPA (records : list GradeRecord.t) : GpaBody :=
  if (length records =? 0)%nat then {| gpa := JS.Num 0; creditTotal := 0 |}
  else
    let acc := reduce records in
    {| gpa := JS.Text (JS.toFixed2 (finalGPA acc));
       creditTotal := totalCredit acc |}.

(** [GradeRecord.find({ userId })] *)
Definition find_grades (uid : string) (c : GradeCollection) : list GradeRecord.t :=
  (filter (fun d => GradeRecord.userId d.2 = uid) c).*2.

(** [GET /api/gpa] *)
Definition get_gpa (uid : string) (c : GradeCollection) : response GpaBody :=
  let records := find_grades uid c in
  Json 200 (cumulativeGPA records).

(** ** Notions used to state the properties *)

(** *** Sums of binary64 numbers *)

(** The sum of a list of numbers as the [reduce] computes it: from [0],
    left to right, each addition rounded to binary64. *)
Definition sum (xs : list float) : float := fold_left PrimFloat.add xs 0%float.

Definition credits (records : list GradeRecord.t) : list float :=
  map GradeRecord.creditHours records.

Definition weighted (records : list GradeRecord.t) : list float :=
  map (fun r => (GradeRecord.gpa r * GradeRecord.creditHours r)%float) records.

(** The binary64 values that are whole multiples of [2^k]: sums of such
    values do not round while they stay below [2^53] units. *)

Definition shl (p : positive) (n : nat) : positive := Nat.iter n xO p.

Definition SFof (k n : Z) : spec_float := binary_normalize prec emax n k false.

(** The binary64 value [n * 2^k]. *)
Definition grid (k n : Z) : float := SF2Prim (SFof k n).

(** The number of units of [2^k] in a positive finite [x]. *)
Definition units (k : Z) (x : float) : Z :=
  match Prim2SF x with
  | S754_finite false m e => Z.shiftl (Zpos m) (e - k)
  | _ => 0%Z
  end.

(** [x] is a whole, non-negative number of units of [2^k]. *)
Definition on_grid (k : Z) (x : float) : Prop := x = grid k (units k x).

Definition Zsum (ns : list Z) : Z := foldr Z.add 0%Z ns.

Definition total_units (k : Z) (xs : list float) : Z := Zsum (map (units k) xs).

(** A grade record as this server stores it for summation: the grade
    point is one of the table, the credit hours are a whole, non-negative
    number of units of [2^k]. *)
Definition summable (k : Z) (r : GradeRecord.t) : Prop :=
  (∃ b, GradeRecord.gpa r = points b) ∧ on_grid k (GradeRecord.creditHours r).

(** *** Views of the note collection *)

(** Pinned notes first, then the newest first within each pin group.  The
    notes that are not pinned come in two groups: those whose flag is
    [false], then those whose flag is null. *)
Definition pinned_then_newest (a b : doc) : Prop :=
  (Note.isPinned a.2 = Some true ∧ Note.isPinned b.2 ≠ Some true) ∨
  (Note.isPinned a.2 = Some false ∧ Note.isPinned b.2 = None) ∨
  (Note.isPinned a.2 = Note.isPinned b.2 ∧ (Note.createdAt b.2 ≤ Note.createdAt a.2)%Z).

(** A note that is neither archived nor in the trash. *)
Definition active (n : Note.t) : Prop :=
  Note.isArchived n = Some false ∧ Note.isDeleted n = Some false.

(** The selection of [GET /api/notes], case by case. *)
Definition selected (view courseTag : option string) (n : Note.t) : Prop :=
  if decide (view = Some "deleted") then Note.isDeleted n = Some true
  else if decide (view = Some "archive") then
    Note.isArchived n = Some true ∧ Note.isDeleted n = Some false
  else match courseTag with
       | Some tag =>
           if decide (tag = "") then active n
           else Note.courseTag n = Some (JS.trim tag) ∧ active n
       | None => active n
       end.


(** A payload with a value that does not cast to the type of its path. *)
Definition has_invalid (body : NoteFields) : Prop :=
  u_title body = Field.Invalid ∨ u_content body = Field.Invalid ∨
  u_courseTag body = Field.Invalid ∨ u_isPinned body = Field.Invalid ∨
  u_isArchived body = Field.Invalid ∨ u_isDeleted body = Field.Invalid.


(** The note [d] is listed by [GET /api/notes] for the given [view]. *)
Definition listed (uid : string) (view : option string) (c : NoteCollection) (d : doc) : Prop :=
  ∃ notes, get_notes uid view None c = Json 200 notes ∧ d ∈ notes.


(** *** Sample data *)

Definition sample_record (points hours : float) : GradeRecord.t :=
  {| GradeRecord.userId := "u1"; GradeRecord.course := "Algebra";
     GradeRecord.score := 0; GradeRecord.creditHours := hours;
     GradeRecord.grade := ""; GradeRecord.gpa := points;
     GradeRecord.createdAt := 0 |}.

Definition sample_note : Note.t :=
  {| Note.title := Some "Limits"; Note.content := Some "epsilon and delta";
     Note.courseTag := Some "Math"; Note.isPinned := Some true;
     Note.isArchived := Some true; Note.isDeleted := Some false;
     Note.userId := "u1"; Note.createdAt := 1700000000000 |}.

Definition sample_notes : NoteCollection := {[ 7%N := sample_note ]}.

(** ** The remaining grade-record handlers *)

(** [GET /api/grades] *)
Definition get_grades (uid : string) (c : GradeCollection) : response GradeCollection :=
  let records := filter (fun d => GradeRecord.userId d.2 = uid) c in
  Json 200 records.

(** The first document with that id and owner is removed and returned,
    [null] when there is none. *)
Fixpoint remove_grade (id : oid) (uid : string) (c : GradeCollection)
  : option (oid * GradeRecord.t) * GradeCollection :=
  match c with
  | [] => (None, [])
  | d :: c' =>
      if bool_decide (d.1 = id ∧ GradeRecord.userId d.2 = uid) then (Some d, c')
      else let (deleted, c'') := remove_grade id uid c' in
           (deleted, d :: c'')
  end.

(** [GradeRecord.findOneAndDelete({ _id: id, userId })].  [id] is the object
    id [req.params.id] denotes; when it denotes none the filter does not
    cast and Mongoose throws. *)
Definition findOneAndDelete_grade (id : option oid) (uid : string) (c : GradeCollection)
  : thrown (option (oid * GradeRecord.t) * GradeCollection) :=
  match id with
  | Some id => Some (remove_grade id uid c)
  | None => None
  end.

(** [DELETE /api/grades/:id] *)
Definition delete_grade (uid : string) (id : option oid) (c : GradeCollection)
  : response (oid * GradeRecord.t) * GradeCollection :=
  match findOneAndDelete_grade id uid c with
  | Some (Some deletedRecord, c') => (Empty 204, c')
  | Some (None, c') => (Message 404 "Record not found or access denied", c')
  | None => (Message 500 "Error deleting record", c)
  end.

(** The requests of the grade-record routes, and the collection after each
    of them. *)
Inductive grade_request : Type :=
  | PostGrades (body : GradeBody) (id : oid) (now : Z)
  | GetGrades
  | GetGpa
  | DeleteGrade (id : option oid).

Definition grade_step (c : GradeCollection) (request : string * grade_request)
  : GradeCollection :=
  let (uid, req) := request in
  match req with
  | PostGrades body id now => (post_grades uid body id now c).2
  | GetGrades => c
  | GetGpa => c
  | DeleteGrade id => (delete_grade uid id c).2
  end.

(** A stored record carries the grade and the grade point of its score. *)
Definition graded (r : GradeRecord.t) : Prop :=
  GradeRecord.grade r = getGrade (GradeRecord.score r) ∧
  GradeRecord.gpa r = getGPA (GradeRecord.score r).

Definition grades_ok (c : GradeCollection) : Prop :=
  NoDup c.*1 ∧ Forall (fun d => graded d.2) c.

(** ** The note routes as one service *)

Inductive note_request : Type :=
  | GetNotes (view courseTag : option string)
  | PostNotes (body : NoteBody) (id : oid) (now : Z)
  | PutNote (id : option oid) (body : NoteFields)
  | DeleteNote (id : option oid)
  | DeleteNotePermanent (id : option oid)
  | GetTags.

Definition note_step (c : NoteCollection) (request : string * note_request)
  : NoteCollection :=
  let (uid, req) := request in
  match req with
  | GetNotes view courseTag => c
  | PostNotes body id now => (post_notes uid body id now c).2
  | PutNote id body => (put_note uid id body c).2
  | DeleteNote id => (delete_note uid id c).2
  | DeleteNotePermanent id => (delete_note_permanent uid id c).2
  | GetTags => c
  end.

(** The notes of a collection that belong to [uid]. *)
Definition notes_of (uid : string) (c : NoteCollection) : NoteCollection :=
  filter (fun d : oid * Note.t => Note.userId d.2 = uid) c.

(** ** Authentication middleware *)

(** [s.split(sep)] for a separator of one character. *)
Fixpoint split (sep : ascii) (s : string) : list string :=
  match s with
  | "" => [""]
  | String c r =>
      if Ascii.eqb c sep then "" :: split sep r
      else match split sep r with
           | piece :: pieces => String c piece :: pieces
           | [] => [String c ""]
           end
  end.

(** The user object Supabase resolves from a token. *)
Module SupabaseUser.

Record t : Type := mk {
  id : string;
  email : string
}.

End SupabaseUser.

(** What the middleware does with a request: it answers 401, or it calls
    [next()], leaving the request with an [authorization] header and a
    [req.user]. *)
Inductive auth_result : Type :=
  | Unauthorized (message : string)
  | Next (authorization : option string) (user : option SupabaseUser.t).

(** [authMiddleware].  [authorization] is the request header,
    [cookieToken] the value of [req.cookies?.supabaseAuthToken], and
    [getUser] the answer of [supabase.auth.getUser]: the user, or nothing
    on an error or a missing user. *)
Definition authMiddleware (authorization cookieToken : option string)
    (getUser : string -> option SupabaseUser.t) : auth_result :=
  let token := authorization ≫= (fun h => split " " h !! 1%nat) in
  if negb (JS.Boolean token) then
    if JS.Boolean cookieToken
    then Next (Some ("Bearer " ++ default "" cookieToken)) None
    else Unauthorized "No token provided."
  else
    match getUser (default "" token) with
    | Some user => Next authorization (Some user)
    | None => Unauthorized "Invalid token."
    end.

(** A route mounted behind the middleware ([app.use("/api", ...)]).  Every
    handler of the note, grade, reminder, sleep-session and task routes
    reads [req.user.id] before it touches a collection or a table;
    with [req.user] undefined that read throws, and the handler does
    nothing else ([NoUser]). *)
Inductive api_result (A : Type) : Type :=
  | Refused (message : string)
  | Handled (result : A)
  | NoUser.
Arguments Refused {A} message.
Arguments Handled {A} result.
Arguments NoUser {A}.

Definition api {A : Type} (authorization cookieToken : option string)
    (getUser : string -> option SupabaseUser.t) (handler : string -> A) : api_result A :=
  match authMiddleware authorization cookieToken getUser with
  | Unauthorized message => Refused message
  | Next _ (Some user) => Handled (handler (SupabaseUser.id user))
  | Next _ None => NoUser
  end.

(** ** Notions and sample data for the further properties *)

Definition sample_grades : GradeCollection :=
  [(1%N, GradeRecord.mk "u1" "Algebra" 90 3 "A+" 4 0);
   (2%N, GradeRecord.mk "u2" "Physics" 62 2 "C+" 2.5 1);
   (3%N, GradeRecord.mk "u1" "History" 77 1.5 "A" 3.75 2)].

(** The collection after a sequence of requests, each with its caller. *)
Definition grade_run (c : GradeCollection) (requests : list (string * grade_request))
  : GradeCollection :=
  fold_left grade_step requests c.

Definition note_run (c : NoteCollection) (requests : list (string * note_request))
  : NoteCollection :=
  fold_left note_step requests c.

(** [c] occurs in [s]. *)
Fixpoint occurs (c : ascii) (s : string) : bool :=
  match s with
  | "" => false
  | String a r => Ascii.eqb a c || occurs c r
  end.

(** ** The Supabase routes *)

(** A field of a JSON request body. *)
Module Val.

Inductive t : Type :=
  | Undefined
  | Null
  | Bool (b : bool)
  | Number (x : float)
  | Str (s : string)
  | Compound.

(** ToBoolean: an object or an array ([Compound]) is truthy. *)
Definition truthy (v : t) : bool :=
  match v with
  | Undefined | Null => false
  | Bool b => b
  | Number x => JS.truthy x
  | Str s => negb (String.eqb s "")
  | Compound => true
  end.

End Val.

(** A row or a filter: columns with their values, in the order written. *)
Definition columns : Type := list (string * Val.t).

(** The queries the handlers send through the Supabase client:
    [.from(table).insert([row])], [.select("*").eq(...)],
    [.update(row).eq(...)] and [.delete().eq(...)]. *)
Inductive query : Type :=
  | InsertInto (table : string) (row : columns)
  | SelectFrom (table : string) (fields : string) (eqs : columns)
  | UpdateIn (table : string) (row : columns) (eqs : columns)
  | DeleteFrom (table : string) (eqs : columns).

(** What awaiting a query gives: [{ data, error }], [error] being [null] or
    an object with a [message]; or a rejected promise. *)
Inductive awaited (D : Type) : Type :=
  | Resolved (data : D) (error : option string)
  | Failed.
Arguments Resolved {D} data error.
Arguments Failed {D}.

(** What a handler sends: [{ error }], the data, [{ message, data }]; or
    nothing, when it throws. *)
Inductive reply (D : Type) : Type :=
  | ErrorReply (status : N) (error : string)
  | DataReply (status : N) (data : D)
  | DoneReply (status : N) (message : string) (data : D)
  | Throws.
Arguments ErrorReply {D} status error.
Arguments DataReply {D} status data.
Arguments DoneReply {D} status message data.
Arguments Throws {D}.

(** A handler answers at once, or sends one query and answers from what
    the query gives. *)
Inductive plan (D : Type) : Type :=
  | Answer (r : reply D)
  | Await (q : query) (k : awaited D -> reply D).
Arguments Answer {D} r.
Arguments Await {D} q k.

(** [POST /api/reminders] *)
Definition post_reminders {D} (user_id : string) (name reminder_time : Val.t) : plan D :=
  if negb (Val.truthy reminder_time) || negb (Val.truthy name) then
    Answer (ErrorReply 400 "Missing name or reminder_time")
  else
    Await (InsertInto "sleep_reminders"
             [("user_id", Val.Str user_id); ("name", name);
              ("reminder_time", reminder_time)])
      (fun result =>
         match result with
         | Resolved data (Some message) => ErrorReply 500 message
         | Resolved data None => DataReply 201 data
         | Failed => Throws
         end).

(** [GET /api/reminders].  The handler's parameters are [request] and
    [response]; its last statement calls [res.status(200)], and no [res] is
    in scope there: the statement throws a ReferenceError. *)
Definition get_reminders {D} (user_id : string) : plan D :=
  Await (SelectFrom "sleep_reminders" "*" [("user_id", Val.Str user_id)])
    (fun result =>
       match result with
       | Resolved data (Some message) => ErrorReply 500 message
       | Resolved data None => Throws
       | Failed => Throws
       end).

(** [DELETE /api/reminders/:id] *)
Definition delete_reminder {D} (user_id reminderId : string) : plan D :=
  Await (DeleteFrom "sleep_reminders"
           [("id", Val.Str reminderId); ("user_id", Val.Str user_id)])
    (fun result =>
       match result with
       | Resolved data (Some message) => ErrorReply 500 message
       | Resolved data None => DoneReply 200 "Reminder deleted successfully" data
       | Failed => Throws
       end).

(** [request.body] of [POST /api/sleepSessions]. *)
Record SleepBody : Type := mkSleepBody {
  sleep_date : Val.t;
  bed_time : Val.t;
  wakeup_time : Val.t;
  duration_str : Val.t;
  interruption_note : Val.t;
  dreams_note : Val.t;
  sleep_quality : Val.t
}.

(** [POST /api/sleepSessions] *)
Definition post_sleepSessions {D} (user_id : string) (body : SleepBody) : plan D :=
  if negb (Val.truthy (sleep_date body)) || negb (Val.truthy (bed_time body))
     || negb (Val.truthy (wakeup_time body)) || negb (Val.truthy (duration_str body))
  then Answer (ErrorReply 400 "Missing fields")
  else
    Await (InsertInto "sleep_sessions"
             [("user_id", Val.Str user_id);
              ("sleep_date", sleep_date body);
              ("bed_time", bed_time body);
              ("wakeup_time", wakeup_time body);
              ("duration_str", duration_str body);
              ("interruption_note", interruption_note body);
              ("dreams_note", dreams_note body)])
      (fun result =>
         match result with
         | Resolved data (Some message) => ErrorReply 500 message
         | Resolved data None => DataReply 201 data
         | Failed => Throws
         end).

(** [GET /api/sleepSessions] *)
Definition get_sleepSessions {D} (user_id : string) : plan D :=
  Await (SelectFrom "sleep_sessions" "*" [("user_id", Val.Str user_id)])
    (fun result =>
       match result with
       | Resolved data (Some message) => ErrorReply 500 message
       | Resolved data None => DataReply 200 data
       | Failed => Throws
       end).

(** [DELETE /api/sleepSessions/:id] *)
Definition delete_sleepSession {D} (user_id sessionId : string) : plan D :=
  if negb (JS.Boolean (Some user_id)) then Answer (ErrorReply 400 "Missing user_id")
  else
    Await (DeleteFrom "sleep_sessions"
             [("id", Val.Str sessionId); ("user_id", Val.Str user_id)])
      (fun result =>
         match result with
         | Resolved data (Some message) => ErrorReply 500 message
         | Resolved data None => DoneReply 200 "Session deleted successfully" data
         | Failed => Throws
         end).

(** [req.body] of [POST /api/tasks] and [PUT /api/tasks/:id]. *)
Record TaskBody : Type := mkTaskBody {
  t_title : Val.t;
  t_description : Val.t;
  t_category : Val.t;
  t_priority_level : Val.t
}.

(** [POST /api/tasks]; [now] is [new Date().toISOString()].  The query is
    awaited inside a [try]: a rejected promise is answered with 500. *)
Definition post_tasks {D} (user_id : string) (body : TaskBody) (now : string) : plan D :=
  if negb (Val.truthy (t_title body)) || negb (Val.truthy (t_category body))
     || negb (Val.truthy (t_priority_level body))
  then Answer (ErrorReply 400 "Missing required fields")
  else
    let newTask :=
      [("user_id", Val.Str user_id);
       ("title", t_title body);
       ("description", t_description body);
       ("category", t_category body);
       ("priority_level", t_priority_level body);
       ("created_at", Val.Str now)] in
    Await (InsertInto "tasks" newTask)
      (fun result =>
         match result with
         | Resolved data (Some message) => ErrorReply 500 ("Database error: " ++ message)
         | Resolved data None => DataReply 201 data
         | Failed => ErrorReply 500 "Internal server error"
         end).

(** [GET /api/tasks] *)
Definition get_tasks {D} (user_id : string) : plan D :=
  Await (SelectFrom "tasks" "*" [("user_id", Val.Str user_id)])
    (fun result =>
       match result with
       | Resolved data (Some message) => ErrorReply 500 "No task  found"
       | Resolved data None => DataReply 200 data
       | Failed => Throws
       end).

(** [PUT /api/tasks/:id] *)
Definition put_task {D} (user_id id : string) (body : TaskBody) : plan D :=
  if negb (Val.truthy (t_title body)) || negb (Val.truthy (t_category body))
     || negb (Val.truthy (t_priority_level body))
  then Answer (ErrorReply 400 "Missing title or priolity_level")
  else
    Await (UpdateIn "tasks"
             [("title", t_title body);
              ("description", t_description body);
              ("category", t_category body);
              ("priority_level", t_priority_level body)]
             [("id", Val.Str id); ("user_id", Val.Str user_id)])
      (fun result =>
         match result with
         | Resolved data (Some message) => ErrorReply 500 "Task not found!"
         | Resolved data None => DataReply 200 data
         | Failed => Throws
         end).

(** [DELETE /api/tasks/:id] *)
Definition delete_task {D} (user_id id : string) : plan D :=
  if negb (JS.Boolean (Some user_id)) then Answer (ErrorReply 400 "Missing user_id")
  else
    Await (DeleteFrom "tasks" [("id", Val.Str id); ("user_id", Val.Str user_id)])
      (fun result =>
         match result with
         | Resolved data (Some message) => ErrorReply 500 message
         | Resolved data None => DoneReply 200 "Task deleted successfully" data
         | Failed => Throws
         end).

(** The requests of the Supabase routes and the handler of each. *)
Inductive supabase_request : Type :=
  | PostReminders (name reminder_time : Val.t)
  | GetReminders
  | DeleteReminder (reminderId : string)
  | PostSleepSessions (body : SleepBody)
  | GetSleepSessions
  | DeleteSleepSession (sessionId : string)
  | PostTasks (body : TaskBody) (now : string)
  | GetTasks
  | PutTask (id : string) (body : TaskBody)
  | DeleteTask (id : string).

Definition supabase_route {D} (user_id : string) (request : supabase_request) : plan D :=
  match request with
  | PostReminders name reminder_time => post_reminders user_id name reminder_time
  | GetReminders => get_reminders user_id
  | DeleteReminder reminderId => delete_reminder user_id reminderId
  | PostSleepSessions body => post_sleepSessions user_id body
  | GetSleepSessions => get_sleepSessions user_id
  | DeleteSleepSession sessionId => delete_sleepSession user_id sessionId
  | PostTasks body now => post_tasks user_id body now
  | GetTasks => get_tasks user_id
  | PutTask id body => put_task user_id id body
  | DeleteTask id => delete_task user_id id
  end.

(** The value a row or a filter gives a column: that of its first entry. *)
Fixpoint column (name : string) (cs : columns) : option Val.t :=
  match cs with
  | [] => None
  | (k, v) :: cs => if String.eqb k name then Some v else column name cs
  end.

(** A query that touches the rows of [user_id] only: an inserted row
    carries that [user_id]; a selection, an update or a deletion filters on
    it, and an update does not write the column. *)
Definition scoped (user_id : string) (q : query) : Prop :=
  match q with
  | InsertInto _ row => column "user_id" row = Some (Val.Str user_id)
  | SelectFrom _ _ eqs | DeleteFrom _ eqs => column "user_id" eqs = Some (Val.Str user_id)
  | UpdateIn _ row eqs =>
      column "user_id" eqs = Some (Val.Str user_id) ∧ column "user_id" row = None
  end.

(** The columns a handler checks before it writes to a table. *)
Definition checked_columns (table : string) : list string :=
  if String.eqb table "sleep_reminders" then ["name"; "reminder_time"]
  else if String.eqb table "sleep_sessions"
       then ["sleep_date"; "bed_time"; "wakeup_time"; "duration_str"]
  else if String.eqb table "tasks" then ["title"; "category"; "priority_level"]
  else [].

(** The value the body of a request gives a field; [undefined] for a field
    the handler does not read. *)
Definition body_field (request : supabase_request) (name : string) : Val.t :=
  match request with
  | PostReminders name' reminder_time =>
      if String.eqb name "name" then name'
      else if String.eqb name "reminder_time" then reminder_time
      else Val.Undefined
  | PostSleepSessions body =>
      if String.eqb name "sleep_date" then sleep_date body
      else if String.eqb name "bed_time" then bed_time body
      else if String.eqb name "wakeup_time" then wakeup_time body
      else if String.eqb name "duration_str" then duration_str body
      else if String.eqb name "interruption_note" then interruption_note body
      else if String.eqb name "dreams_note" then dreams_note body
      else if String.eqb name "sleep_quality" then sleep_quality body
      else Val.Undefined
  | PostTasks body _ | PutTask _ body =>
      if String.eqb name "title" then t_title body
      else if String.eqb name "description" then t_description body
      else if String.eqb name "category" then t_category body
      else if String.eqb name "priority_level" then t_priority_level body
      else Val.Undefined
  | _ => Val.Undefined
  end.

(** * Properties *)

Set Warnings "-inexact-float,-clear-no-such-hyp".

(** ** The order of binary64 values *)

Section float_order.

Local Ltac cmp_cases :=
  repeat match goal with
  | H : context [Z.compare ?a ?b] |- _ => destruct (Z.compare_spec a b)
  | |- context [Z.compare ?a ?b] => destruct (Z.compare_spec a b)
  | H : context [Pos.compare_cont Eq ?a ?b] |- _ =>
      change (Pos.compare_cont Eq a b) with (Pos.compare a b) in H;
      destruct (Pos.compare_spec a b)
  | |- context [Pos.compare_cont Eq ?a ?b] =>
      change (Pos.compare_cont Eq a b) with (Pos.compare a b);
      destruct (Pos.compare_spec a b)
  end.

Local Ltac by_cases :=
  simpl; try discriminate; try reflexivity; intros;
  cmp_cases; simpl in *; try discriminate; try reflexivity; try lia.

Lemma SFltb_leb_trans x y z :
  SFltb x y = true → SFleb y z = true → SFltb x z = true.
Proof.
  unfold SFltb, SFleb.
  destruct x as [[]|[]| |[] mx ex], y as [[]|[]| |[] my ey],
           z as [[]|[]| |[] mz ez]; by_cases.
Qed.

Lemma SFleb_ltb_trans x y z :
  SFleb x y = true → SFltb y z = true → SFltb x z = true.
Proof.
  unfold SFltb, SFleb.
  destruct x as [[]|[]| |[] mx ex], y as [[]|[]| |[] my ey],
           z as [[]|[]| |[] mz ez]; by_cases.
Qed.

Lemma SFltb_not_leb x y : SFltb x y = true → SFleb y x = false.
Proof.
  unfold SFltb, SFleb.
  destruct x as [[]|[]| |[] mx ex], y as [[]|[]| |[] my ey]; by_cases.
Qed.

Lemma SFltb_leb x y : SFltb x y = true → SFleb x y = true.
Proof.
  unfold SFltb, SFleb. destruct (SFcompare x y) as [[]|]; congruence.
Qed.

(** [a <= b < s] gives [s >= a], and [s < a <= b] excludes [s >= b]. *)
Lemma ge_above (a b s : float) :
  PrimFloat.leb a b = true → PrimFloat.ltb b s = true → JS.ge s a = true.
Proof.
  unfold JS.ge. rewrite !leb_spec, ltb_spec. intros Hab Hbs.
  apply SFltb_leb. eapply SFleb_ltb_trans; eassumption.
Qed.

Lemma ge_below (a b s : float) :
  PrimFloat.ltb s a = true → PrimFloat.leb a b = true → JS.ge s b = false.
Proof.
  unfold JS.ge. rewrite !leb_spec, ltb_spec. intros Hsa Hab.
  apply SFltb_not_leb. eapply SFltb_leb_trans; eassumption.
Qed.

End float_order.

(** ** Grade calculation *)

Example getGrade_85 : getGrade 85 = "A+" ∧ getGPA 85 = 4%float.
Proof. split; reflexivity. Qed.

Example getGrade_84_999 : getGrade 84.999 = "A" ∧ getGPA 84.999 = 3.75%float.
Proof. split; reflexivity. Qed.

Example getGrade_out_of_range :
  getGrade (-1) = "F" ∧ getGPA (-1) = 0%float ∧
  getGrade 101 = "A+" ∧ getGPA 101 = 4%float.
Proof. repeat split; reflexivity. Qed.

(** C1.  For every numeric score, [getGrade] and [getGPA] report the same
    row of the threshold table.  Each band is closed on its lower bound: a
    score that reaches the lower bound of a band and stays below the lower
    bound of the band above gets the letter and the points of that band
    (85 yields A+ and 4.0, a score below 85 that is at least 75 yields A
    and 3.75).  A negative score yields F and 0.0, a score above 100
    yields A+ and 4.0. *)
Theorem grade_and_points_same_band (s : float) :
  (getGrade s = letter (spec_band s) ∧ getGPA s = points (spec_band s)) ∧
  (∀ b, in_band b s = true → getGrade s = letter b ∧ getGPA s = points b) ∧
  (PrimFloat.ltb s 0 = true → getGrade s = "F" ∧ getGPA s = 0.0%float) ∧
  (PrimFloat.ltb 100 s = true → getGrade s = "A+" ∧ getGPA s = 4.0%float).
Proof.
  assert (Hband : getGrade s = letter (spec_band s) ∧ getGPA s = points (spec_band s)).
  { unfold getGrade, getGPA, spec_band.
    repeat match goal with |- context [JS.ge s ?t] => destruct (JS.ge s t) end;
      split; reflexivity. }
  assert (Hbelow : ∀ hi, PrimFloat.ltb s hi = true →
                   ∀ t, PrimFloat.leb hi t = true → JS.ge s t = false).
  { intros hi Hhi t Ht. by apply (ge_below hi). }
  split; [exact Hband|]. split; [|split].
  - intros b Hb. rewrite (proj1 Hband), (proj2 Hband).
    enough (spec_band s = b) as -> by done.
    unfold in_band in Hb. apply andb_true_iff in Hb as [Hlo Hhi].
    unfold spec_band.
    destruct b; simpl in Hlo, Hhi;
      try rewrite !(Hbelow _ Hhi) by reflexivity;
      try (unfold JS.ge; rewrite Hlo); reflexivity.
  - intros Hneg. unfold getGrade, getGPA.
    rewrite !(Hbelow _ Hneg) by reflexivity. split; reflexivity.
  - intros Hbig.
    assert (JS.ge s 85 = true) as Htop
      by (apply (ge_above 85 100); [reflexivity | assumption]).
    unfold getGrade, getGPA. rewrite Htop. split; reflexivity.
Qed.

(** ** GPA aggregation *)

Lemma fold_reduce_step records acc :
  fold_left reduce_step records acc =
  {| totalGPA := fold_left PrimFloat.add (weighted records) (totalGPA acc);
     totalCredit := fold_left PrimFloat.add (credits records) (totalCredit acc) |}.
Proof.
  revert acc. induction records as [|r records IH]; intros acc; simpl.
  - by destruct acc.
  - by rewrite IH.
Qed.

Lemma reduce_sums records :
  reduce records =
  {| totalGPA := sum (weighted records); totalCredit := sum (credits records) |}.
Proof. unfold reduce. by rewrite fold_reduce_step. Qed.

(** [toFixed(2)] rounds to the nearest hundredth: [n] is within one half of
    [100 * m * 2^e], the upper neighbour on a tie. *)
Lemma nearest_hundredth_spec (m : positive) (e : Z) :
  let n := JS.nearest_hundredth m e in
  match e with
  | Zneg p => (2 * n * 2 ^ Zpos p ≤ 2 * (100 * Zpos m) + 2 ^ Zpos p
               < 2 * (n + 1) * 2 ^ Zpos p)%Z
  | _ => (n = 100 * Zpos m * 2 ^ e)%Z
  end.
Proof.
  destruct e as [|p|p]; simpl JS.nearest_hundredth; cbv zeta.
  - change (2 ^ 0)%Z with 1%Z. lia.
  - reflexivity.
  - set (num := (100 * Z.pos m)%Z). set (d := (2 ^ Z.pos p)%Z).
    assert (0 < d)%Z by (apply Z.pow_pos_nonneg; lia).
    replace (2 ^ (Z.pos p + 1))%Z with (2 * d)%Z
      by (unfold d; rewrite Z.pow_add_r by lia; lia).
    pose proof (Z.mul_div_le (2 * num + d) (2 * d) ltac:(lia)).
    pose proof (Z.mul_succ_div_gt (2 * num + d) (2 * d) ltac:(lia)).
    lia.
Qed.

Lemma finalGPA_sums records :
  finalGPA (reduce records) =
  if JS.truthy (sum (credits records))
  then (sum (weighted records) / sum (credits records))%float
  else 0%float.
Proof. by rewrite reduce_sums. Qed.

Lemma cumulativeGPA_cons r records :
  cumulativeGPA (r :: records) =
  {| gpa := JS.Text (JS.toFixed2 (finalGPA (reduce (r :: records))));
     creditTotal := sum (credits (r :: records)) |}.
Proof. unfold cumulativeGPA. by rewrite (reduce_sums (r :: records)). Qed.

(** Grade creation stores whatever credit hours the request carries. *)
Example post_grades_any_creditHours :
  post_grades "u1" (mkGradeBody (Some "Algebra") (Some 90%float) (Some (-1)%float)) 1%N 0 []
  = (Json 201 (1%N, GradeRecord.mk "u1" "Algebra" 90 (-1) "A+" 4 0),
     [(1%N, GradeRecord.mk "u1" "Algebra" 90 (-1) "A+" 4 0)]).
Proof. reflexivity. Qed.

Example cumulativeGPA_two_courses :
  cumulativeGPA [sample_record (getGPA 90) 3; sample_record (getGPA 60) 1] =
  {| gpa := JS.Text (JS.Digits "3.63"); creditTotal := 4 |}.
Proof. reflexivity. Qed.

(** C2, as the handler computes it.  [creditTotal] is the sum of the
    records' [creditHours], unrounded.  The empty sequence yields
    [{gpa: 0, creditTotal: 0}].  On a non-empty sequence [gpa] is the
    [toFixed(2)] text, two decimals, of the weighted sum divided by
    [creditTotal] when [creditTotal] is truthy (neither zero nor NaN), and
    of [0] otherwise. *)
Theorem cumulativeGPA_computes (records : list GradeRecord.t) :
  creditTotal (cumulativeGPA records) = sum (credits records) ∧
  match records with
  | [] => cumulativeGPA records = {| gpa := JS.Num 0; creditTotal := 0 |}
  | _ :: _ =>
      gpa (cumulativeGPA records) =
      JS.Text (JS.toFixed2
        (if JS.truthy (sum (credits records))
         then (sum (weighted records) / sum (credits records))%float
         else 0%float))
  end.
Proof.
  destruct records as [|r records]; [by split|].
  rewrite cumulativeGPA_cons, finalGPA_sums. by split.
Qed.

(** C2 as stated fails: with a negative credit total the handler divides
    instead of answering 0, and what it returns in [gpa] is the text of a
    number, not a number. *)
Lemma cumulativeGPA_negative_total_text :
  let r := cumulativeGPA [sample_record 4 (-1)] in
  creditTotal r = (-1)%float ∧ PrimFloat.ltb 0 (creditTotal r) = false ∧
  gpa r = JS.Text (JS.Digits "4.00") ∧ ¬ (∃ x, gpa r = JS.Num x).
Proof.
  repeat split; try reflexivity. intros [x Hx]. discriminate Hx.
Qed.

(** C10.  On a non-empty list of records whose credit hours sum to zero the
    division is not performed: the final GPA is [0], it is reported as
    ["0.00"], and the credit total reported is zero. *)
Theorem zero_credit_total_guarded (records : list GradeRecord.t) :
  records ≠ [] →
  PrimFloat.eqb (sum (credits records)) 0 = true →
  finalGPA (reduce records) = 0%float ∧
  gpa (cumulativeGPA records) = JS.Text (JS.Digits "0.00") ∧
  PrimFloat.eqb (creditTotal (cumulativeGPA records)) 0 = true.
Proof.
  intros Hne Hzero.
  assert (finalGPA (reduce records) = 0%float) as Hfinal.
  { rewrite finalGPA_sums. unfold JS.truthy. by rewrite Hzero. }
  destruct records as [|r records]; [done|].
  rewrite cumulativeGPA_cons, Hfinal. by repeat split.
Qed.

Lemma zero_credit_total_guarded_witness :
  let records := [sample_record 4 1; sample_record 2 (-1)] in
  finalGPA (reduce records) = 0%float ∧
  gpa (cumulativeGPA records) = JS.Text (JS.Digits "0.00") ∧
  PrimFloat.eqb (creditTotal (cumulativeGPA records)) 0 = true.
Proof.
  apply (zero_credit_total_guarded [sample_record 4 1; sample_record 2 (-1)]);
    [discriminate | reflexivity].
Defined.

(** ** Note retrieval *)

Lemma sort_le_pinned_then_newest a b : sort_le a b ↔ pinned_then_newest a b.
Proof.
  unfold sort_le, sort_leb, pinned_then_newest.
  destruct (Note.isPinned a.2) as [[]|], (Note.isPinned b.2) as [[]|]; simpl;
    rewrite ?Z.leb_le; naive_solver.
Qed.

Global Instance sort_le_total : Total sort_le.
Proof.
  intros a b. rewrite !sort_le_pinned_then_newest. unfold pinned_then_newest.
  destruct (Note.isPinned a.2) as [[]|], (Note.isPinned b.2) as [[]|];
    destruct (Z.le_ge_cases (Note.createdAt a.2) (Note.createdAt b.2)); naive_solver.
Qed.

Global Instance sort_le_trans : Transitive sort_le.
Proof.
  intros a b d. rewrite !sort_le_pinned_then_newest. unfold pinned_then_newest.
  destruct (Note.isPinned a.2) as [[]|], (Note.isPinned b.2) as [[]|],
    (Note.isPinned d.2) as [[]|]; naive_solver lia.
Qed.

Lemma StronglySorted_weaken {A} (R S : relation A) (l : list A) :
  (∀ a b, R a b → S a b) → StronglySorted R l → StronglySorted S l.
Proof.
  intros HRS. induction 1 as [|a l Hl IH Ha]; constructor; [exact IH|].
  eapply Forall_impl; [exact Ha | apply HRS].
Qed.

Lemma elem_of_find f (c : NoteCollection) id n :
  (id, n) ∈ find f c ↔ c !! id = Some n ∧ matches (cast_filter f) n = true.
Proof.
  unfold find. rewrite list_elem_of_filter, elem_of_map_to_list. naive_solver.
Qed.

Lemma NoDup_find f (c : NoteCollection) : NoDup (find f c).
Proof. apply NoDup_filter, NoDup_map_to_list. Qed.

Lemma elem_of_sort l d : d ∈ sort l ↔ d ∈ l.
Proof. unfold sort. by rewrite merge_sort_Permutation. Qed.

Lemma bool_eqb_true (a b : bool) : Bool.eqb a b = true ↔ a = b.
Proof. destruct a, b; naive_solver. Qed.

Lemma strict_eq_true v s : JS.strict_eq v s = true ↔ v = Some s.
Proof.
  destruct v as [t|]; simpl; [|naive_solver].
  rewrite String.eqb_eq. naive_solver.
Qed.

Lemma Boolean_true v : JS.Boolean v = true ↔ ∃ s, v = Some s ∧ s ≠ "".
Proof.
  destruct v as [t|]; simpl; [|naive_solver].
  rewrite negb_true_iff, String.eqb_neq. naive_solver.
Qed.

Lemma key_matches_spec {A} (eqb : A → A → bool) (k v : option A) :
  (∀ x y, eqb x y = true ↔ x = y) →
  key_matches eqb k v = true ↔ ∀ x, k = Some x → v = Some x.
Proof.
  intros Heqb. destruct k as [x|], v as [y|]; simpl; rewrite ?Heqb; naive_solver.
Qed.

(** What a filter constrains: a key of the filter is met by the stored
    value equal to it, never by a stored null. *)
Lemma matches_spec f n :
  matches f n = true ↔
  Note.userId n = f_userId f ∧
  (∀ b, f_isDeleted f = Some b → Note.isDeleted n = Some b) ∧
  (∀ b, f_isArchived f = Some b → Note.isArchived n = Some b) ∧
  (∀ t, f_courseTag f = Some t → Note.courseTag n = Some t).
Proof.
  unfold matches. rewrite !andb_true_iff, String.eqb_eq.
  rewrite !(key_matches_spec Bool.eqb) by apply bool_eqb_true.
  rewrite (key_matches_spec String.eqb) by apply String.eqb_eq.
  naive_solver.
Qed.

Lemma matches_notes_filter uid view courseTag n :
  matches (cast_filter (notes_filter uid view courseTag)) n = true ↔
  Note.userId n = uid ∧ selected view courseTag n.
Proof.
  rewrite matches_spec. unfold notes_filter, selected, active.
  destruct (JS.strict_eq view "deleted") eqn:Hdel.
  { apply strict_eq_true in Hdel as ->. rewrite decide_True by done.
    simpl. naive_solver. }
  destruct (JS.strict_eq view "archive") eqn:Harc.
  { apply strict_eq_true in Harc as ->.
    rewrite decide_False by done. rewrite decide_True by done.
    simpl. naive_solver. }
  rewrite decide_False by (intros ->; cbv in Hdel; discriminate).
  rewrite decide_False by (intros ->; cbv in Harc; discriminate).
  destruct courseTag as [tag|]; simpl; [|naive_solver].
  destruct (decide (tag = "")) as [->|Hne]; [simpl; naive_solver|].
  apply String.eqb_neq in Hne as ->. simpl. naive_solver.
Qed.

Lemma elem_of_get_notes uid view courseTag (c : NoteCollection) id n :
  (id, n) ∈ sort (find (notes_filter uid view courseTag) c) ↔
  c !! id = Some n ∧ Note.userId n = uid ∧ selected view courseTag n.
Proof. by rewrite elem_of_sort, elem_of_find, matches_notes_filter. Qed.

(** C3, as the handler and the schema behave.  [GET /api/notes] answers
    with the caller's notes selected by the query: [view=deleted] selects
    the notes in the trash whatever their archive flag; [view=archive] the
    archived notes not in the trash; a [courseTag] given (a non-empty
    value) with neither of those views the active notes whose tag is the
    given text without its leading and trailing white space; anything
    else the active notes.  Each selected note occurs once, and the answer
    lists pinned notes before the others and the newest first within each
    pin group, the notes whose flag is [false] coming before those whose
    flag is null. *)
Theorem get_notes_selects_and_orders
    (uid : string) (view courseTag : option string) (c : NoteCollection) :
  ∃ notes,
    get_notes uid view courseTag c = Json 200 notes ∧
    NoDup notes ∧
    StronglySorted pinned_then_newest notes ∧
    ∀ id n,
      (id, n) ∈ notes ↔
      c !! id = Some n ∧ Note.userId n = uid ∧
      if decide (view = Some "deleted") then Note.isDeleted n = Some true
      else if decide (view = Some "archive") then
        Note.isArchived n = Some true ∧ Note.isDeleted n = Some false
      else match courseTag with
           | Some tag =>
               if decide (tag = "") then active n
               else Note.courseTag n = Some (JS.trim tag) ∧ active n
           | None => active n
           end.
Proof.
  eexists. split; [reflexivity|]. split; [|split].
  - unfold sort. rewrite merge_sort_Permutation. apply NoDup_find.
  - apply (StronglySorted_weaken sort_le); [|apply (StronglySorted_merge_sort sort_le)].
    intros a b. apply sort_le_pinned_then_newest.
  - intros id n. apply elem_of_get_notes.
Qed.

(** C3 as stated fails on a tag written with white space around it: the
    filter is trimmed when it is cast to the schema, and [courseTag= Math ]
    lists the note tagged [Math], whose tag is not the given text. *)
Lemma get_notes_tag_filter_trimmed :
  ∃ n,
    get_notes "u1" None (Some " Math ")
      {[ 1%N := Note.mk (Some "Limits") (Some "epsilon") (Some "Math")
                  (Some false) (Some false) (Some false) "u1" 5 ]}
      = Json 200 [(1%N, n)] ∧
    Note.courseTag n = Some "Math" ∧
    Note.courseTag n ≠ Some " Math ".
Proof. eexists. split; [reflexivity|]. split; [reflexivity | discriminate]. Qed.

(** ** Note updates *)

Lemma updateFields_id body : updateFields body = body.
Proof. by destruct body as [[] [] [] [] [] []]. Qed.

Lemma Field_castable_false {A} (f : Field.t A) :
  Field.castable f = false ↔ f = Field.Invalid.
Proof. by destruct f. Qed.

Lemma castable_false body : castable body = false ↔ has_invalid body.
Proof.
  unfold castable, has_invalid.
  rewrite !andb_false_iff, !Field_castable_false. naive_solver.
Qed.

Lemma castable_spec body : castable body = true ↔ ¬ has_invalid body.
Proof.
  rewrite <- castable_false. destruct (castable body); naive_solver.
Qed.

Lemma findOneAndUpdate_owned id uid upd (c : NoteCollection) n :
  c !! id = Some n → Note.userId n = uid → castable upd = true →
  findOneAndUpdate (Some id) uid upd c =
  Some (Some (id, apply_set upd n), <[id := apply_set upd n]> c).
Proof.
  intros Hc Hu Hcast. unfold findOneAndUpdate. rewrite Hc, Hcast.
  by apply String.eqb_eq in Hu as ->.
Qed.

Lemma findOneAndUpdate_not_owned id uid upd (c : NoteCollection) :
  (c !! id = None ∨ ∃ n, c !! id = Some n ∧ Note.userId n ≠ uid) →
  castable upd = true →
  findOneAndUpdate (Some id) uid upd c = Some (None, c).
Proof.
  unfold findOneAndUpdate. intros [->|(n & -> & Hne)] ->; [done|].
  by apply String.eqb_neq in Hne as ->.
Qed.

Lemma findOneAndUpdate_invalid id uid upd (c : NoteCollection) :
  castable upd = false → findOneAndUpdate id uid upd c = None.
Proof. unfold findOneAndUpdate. intros ->. by destruct id. Qed.

Lemma findOneAndDelete_not_owned id uid (c : NoteCollection) :
  (c !! id = None ∨ ∃ n, c !! id = Some n ∧ Note.userId n ≠ uid) →
  findOneAndDelete (Some id) uid c = Some (None, c).
Proof.
  unfold findOneAndDelete. intros [->|(n & -> & Hne)]; [done|].
  by apply String.eqb_neq in Hne as ->.
Qed.




(** C6, as the handlers behave.  When no note with the given id is owned
    by the requester, because the id is not stored or because the note
    belongs to someone else, update and permanent deletion leave the
    collection as it was.  For an id that is an object id and a payload
    that casts to the schema both answer with the same 404 message,
    whatever the cause.  An update whose payload has a value that does not
    cast answers 400; for an id that is no object id the update answers
    400 and the permanent deletion 500. *)
Theorem not_owned_not_found
    (uid : string) (id : option oid) (body : NoteFields) (c : NoteCollection) :
  (∀ i, id = Some i → c !! i = None ∨ ∃ n, c !! i = Some n ∧ Note.userId n ≠ uid) →
  (put_note uid id body c).2 = c ∧
  (delete_note_permanent uid id c).2 = c ∧
  match id with
  | Some i =>
      (¬ has_invalid body →
       put_note uid id body c = (Message 404 "Note not found or access denied", c)) ∧
      (has_invalid body →
       put_note uid id body c = (Message 400 "Update error", c)) ∧
      delete_note_permanent uid id c = (Message 404 "Note not found or access denied", c)
  | None =>
      put_note uid id body c = (Message 400 "Update error", c) ∧
      delete_note_permanent uid id c = (Message 500 "Permanent deletion error", c)
  end.
Proof.
  intros Hno. unfold put_note, delete_note_permanent. rewrite updateFields_id.
  destruct id as [i|]; [|done].
  specialize (Hno i eq_refl). rewrite (findOneAndDelete_not_owned i uid c Hno).
  destruct (castable body) eqn:Hcast.
  - rewrite (findOneAndUpdate_not_owned i uid body c Hno Hcast).
    apply castable_spec in Hcast. naive_solver.
  - rewrite (findOneAndUpdate_invalid _ uid body c Hcast).
    apply castable_false in Hcast. naive_solver.
Qed.

Lemma not_owned_not_found_witness :
  (put_note "u2" (Some 7%N) (set_isDeleted no_fields true) sample_notes).2 = sample_notes ∧
  (delete_note_permanent "u2" (Some 7%N) sample_notes).2 = sample_notes ∧
  (¬ has_invalid (set_isDeleted no_fields true) →
   put_note "u2" (Some 7%N) (set_isDeleted no_fields true) sample_notes
     = (Message 404 "Note not found or access denied", sample_notes)) ∧
  (has_invalid (set_isDeleted no_fields true) →
   put_note "u2" (Some 7%N) (set_isDeleted no_fields true) sample_notes
     = (Message 400 "Update error", sample_notes)) ∧
  delete_note_permanent "u2" (Some 7%N) sample_notes
    = (Message 404 "Note not found or access denied", sample_notes).
Proof.
  apply (not_owned_not_found "u2" (Some 7%N) (set_isDeleted no_fields true) sample_notes).
  intros i [= <-]. right. exists sample_note. split; [reflexivity | discriminate].
Defined.

(** C6 as stated fails on an id that is no object id ([/api/notes/abc],
    say), and on a payload that does not cast ([{isPinned: "maybe"}]): no
    note with that id is owned by the requester, and the answer is 400
    from the update and 500 from the permanent deletion, not 404. *)
Lemma malformed_request_not_404 :
  put_note "u1" None (set_isDeleted no_fields true) sample_notes
    = (Message 400 "Update error", sample_notes) ∧
  delete_note_permanent "u1" None sample_notes
    = (Message 500 "Permanent deletion error", sample_notes) ∧
  sample_notes !! 8%N = None ∧
  put_note "u1" (Some 8%N) (with_isPinned no_fields Field.Invalid) sample_notes
    = (Message 400 "Update error", sample_notes).
Proof. done. Qed.


(** ** Trash and restore *)

Lemma listed_spec uid view (c : NoteCollection) id n :
  listed uid view c (id, n) ↔
  c !! id = Some n ∧ Note.userId n = uid ∧ selected view None n.
Proof.
  unfold listed, get_notes. rewrite <- elem_of_get_notes. split.
  - intros (notes & Heq & Hd). by simplify_eq.
  - intros Hd. by eexists.
Qed.




(** ** Note creation *)

Lemma required_true v : required v = true ↔ ∃ s, v = Some s ∧ s ≠ "".
Proof. apply Boolean_true. Qed.

(** [trim] on a tag written with a tab and a no-break space (U+00A0) before
    it, an em space (U+2003) and a line feed after it, and a space inside. *)
Example trim_sample :
  JS.trim (String "009" (String "194" (String "160"
             ("Math 101" ++ String "226" (String "128" (String "131" (String "010" "")))))))
  = "Math 101".
Proof. reflexivity. Qed.

(** C8, as the handler and the schema behave.  A create request with a
    non-empty title and content and a tag that casts, from a caller with
    an identity, under a fresh id, stores and returns a note owned by the
    caller, with the three state flags false and [createdAt] stamped; its
    [courseTag] is ["General"] when the request has none, null when the
    request gives null, and the trimmed text of the supplied one otherwise
    (the empty string for a blank one). *)
Theorem post_notes_creates
    (uid : string) (body : NoteBody) (id : oid) (now : Z) (c : NoteCollection)
    (title content : string) :
  b_title body = Field.Value title → title ≠ "" →
  b_content body = Field.Value content → content ≠ "" →
  b_courseTag body ≠ Field.Invalid →
  uid ≠ "" → c !! id = None →
  ∃ n,
    post_notes uid body id now c = (Json 201 (id, n), <[id := n]> c) ∧
    Note.userId n = uid ∧
    Note.title n = Some title ∧
    Note.content n = Some content ∧
    Note.courseTag n = match b_courseTag body with
                       | Field.Undefined => Some "General"
                       | Field.Value tag => Some (JS.trim tag)
                       | _ => None
                       end ∧
    Note.isPinned n = Some false ∧
    Note.isArchived n = Some false ∧
    Note.isDeleted n = Some false ∧
    Note.createdAt n = now.
Proof.
  intros Ht Htne Hc Hcne Htag Hu Hfresh. unfold post_notes, new_Note.
  rewrite Ht, Hc. cbn [Field.value].
  rewrite (proj2 (required_true (Some title))) by eauto.
  rewrite (proj2 (required_true (Some content))) by eauto.
  rewrite (proj2 (required_true (Some uid))) by eauto.
  simpl. destruct (b_courseTag body); [| | |done]; simpl; rewrite Hfresh; by eexists.
Qed.

Lemma post_notes_creates_witness :
  ∃ n,
    post_notes "u1"
      (mkNoteBody (Field.Value "Limits") (Field.Value "epsilon") Field.Undefined)
      3%N 1700000000000 ∅
      = (Json 201 (3%N, n), <[3%N := n]> ∅) ∧
    Note.userId n = "u1" ∧
    Note.title n = Some "Limits" ∧
    Note.content n = Some "epsilon" ∧
    Note.courseTag n = Some "General" ∧
    Note.isPinned n = Some false ∧
    Note.isArchived n = Some false ∧
    Note.isDeleted n = Some false ∧
    Note.createdAt n = 1700000000000%Z.
Proof.
  apply (post_notes_creates "u1"
           (mkNoteBody (Field.Value "Limits") (Field.Value "epsilon") Field.Undefined)
           3%N 1700000000000 ∅ "Limits" "epsilon");
    first [reflexivity | discriminate].
Defined.

(** C8 as stated fails on a blank tag, written with spaces or with
    no-break spaces (U+00A0): the note is created with the empty tag, not
    with ["General"]. *)
Lemma post_notes_blank_tag_not_General :
  (∃ n c',
     post_notes "u1" (mkNoteBody (Field.Value "Limits") (Field.Value "epsilon")
                        (Field.Value "  "))
       3%N 1700000000000 ∅ = (Json 201 (3%N, n), c') ∧
     Note.courseTag n = Some "" ∧
     Note.courseTag n ≠ Some "General") ∧
  (∃ n c',
     post_notes "u1" (mkNoteBody (Field.Value "Limits") (Field.Value "epsilon")
                        (Field.Value (String "194" (String "160" ""))))
       3%N 1700000000000 ∅ = (Json 201 (3%N, n), c') ∧
     Note.courseTag n = Some "" ∧
     Note.courseTag n ≠ Some "General").
Proof.
  split; eexists _, _; (split; [reflexivity|]); (split; [reflexivity | discriminate]).
Qed.

(** ** Course tags *)

Lemma NoDup_filter_Boolean tags : NoDup tags → NoDup (filter_Boolean tags).
Proof.
  unfold filter_Boolean. induction 1 as [|v tags Hv Htags IH]; simpl; [constructor|].
  destruct (JS.Boolean v) eqn:Hb; [|exact IH]. destruct v as [t|]; [|done].
  simpl. constructor; [|exact IH].
  rewrite list_elem_of_omap. intros (v' & Hin & Hv').
  destruct (JS.Boolean v'); [|done]. by simplify_eq.
Qed.

Lemma elem_of_filter_Boolean tags t :
  t ∈ filter_Boolean tags ↔ t ≠ "" ∧ Some t ∈ tags.
Proof.
  unfold filter_Boolean. rewrite list_elem_of_omap. split.
  - intros (v & Hin & Hv). destruct (JS.Boolean v) eqn:Hb; [|done]. subst v.
    apply Boolean_true in Hb as (s & ? & ?). by simplify_eq.
  - intros [Hne Hin]. exists (Some t). split; [done|].
    by rewrite (proj2 (Boolean_true (Some t))) by eauto.
Qed.

(** C9.  [GET /api/tags] answers with the non-empty course tags of the
    caller's notes that are neither archived nor in the trash, each once:
    a tag is listed exactly when it is not empty and some active note of
    the caller carries it. *)
Theorem get_tags_distinct_active (uid : string) (c : NoteCollection) :
  ∃ tags,
    get_tags uid c = Json 200 tags ∧
    NoDup tags ∧
    ∀ t, t ∈ tags ↔
         t ≠ "" ∧
         ∃ id n, c !! id = Some n ∧ Note.userId n = uid ∧
                 Note.isArchived n = Some false ∧ Note.isDeleted n = Some false ∧
                 Note.courseTag n = Some t.
Proof.
  eexists. split; [reflexivity|]. split.
  - apply NoDup_filter_Boolean, NoDup_remove_dups.
  - intros t. rewrite elem_of_filter_Boolean. unfold distinct_courseTag.
    rewrite elem_of_remove_dups, list_elem_of_fmap. split.
    + intros (Hne & [id n] & Htag & Hin). split; [done|].
      apply elem_of_find in Hin as [Hc Hm]. apply matches_spec in Hm. simpl in *.
      exists id, n. naive_solver.
    + intros (Hne & id & n & Hc & Hu & Ha & Hd & Htag). split; [done|].
      exists (id, n). split; [done|]. apply elem_of_find. split; [done|].
      apply matches_spec. simpl. naive_solver.
Qed.

Example get_tags_sample :
  get_tags "u1"
    (<[1%N := Note.mk (Some "a") (Some "b") (Some "Math") (Some false) (Some false)
                (Some false) "u1" 5]>
     (<[2%N := Note.mk (Some "a") (Some "b") (Some "Physics") (Some false) (Some true)
                 (Some false) "u1" 6]>
      (<[3%N := Note.mk (Some "a") (Some "b") (Some "") (Some false) (Some false)
                  (Some false) "u1" 7]>
       (<[4%N := Note.mk (Some "a") (Some "b") (Some "Math") (Some true) (Some false)
                   (Some false) "u1" 8]>
        (<[5%N := Note.mk (Some "a") (Some "b") (Some "Art") (Some false) (Some false)
                    (Some false) "u2" 9]>
         (<[6%N := Note.mk (Some "a") (Some "b") None (Some false) (Some false)
                     (Some false) "u1" 9]>
          (<[7%N := Note.mk (Some "a") (Some "b") (Some "Music") (Some false) None
                      (Some false) "u1" 9]> ∅)))))))
  = Json 200 ["Math"].
Proof. reflexivity. Qed.

(** ** Sums that do not round *)

Lemma shl_S p n : shl p (S n) = xO (shl p n).
Proof. reflexivity. Qed.

Lemma shl_add p n m : shl (shl p n) m = shl p (n + m).
Proof. unfold shl. rewrite Nat.add_comm. symmetry. apply Nat.iter_add. Qed.

Lemma Pos_iter_xO p d : Pos.iter xO p d = shl p (Pos.to_nat d).
Proof. unfold shl. rewrite Pos2Nat.inj_iter. reflexivity. Qed.

Lemma digits2_shl p n :
  Zpos (digits2_pos (shl p n)) = (Zpos (digits2_pos p) + Z.of_nat n)%Z.
Proof.
  induction n as [|n IH]; [simpl; lia|].
  rewrite shl_S. simpl digits2_pos. lia.
Qed.

Lemma shl_plus a b n : (shl a n + shl b n)%positive = shl (a + b) n.
Proof. induction n as [|n IH]; [done|]. rewrite !shl_S, <- IH. reflexivity. Qed.

Lemma shl_mul a b n m : (shl a n * shl b m)%positive = shl (a * b) (n + m).
Proof.
  induction n as [|n IH].
  - induction m as [|m IH]; [done|].
    change (0 + S m)%nat with (S (0 + m)). by rewrite !shl_S, Pos.mul_xO_r, IH.
  - change (S n + m)%nat with (S (n + m)). rewrite !shl_S.
    change ((shl a n)~0 * shl b m)%positive with ((shl a n * shl b m)~0)%positive.
    by rewrite IH.
Qed.

Lemma iter_pos_nat {A} (f : A → A) p x :
  SpecFloat.iter_pos f p x = Nat.iter (Pos.to_nat p) f x.
Proof.
  revert x. induction p as [p IH|p IH|]; intros x.
  - change (SpecFloat.iter_pos f p~1 x)
      with (SpecFloat.iter_pos f p (SpecFloat.iter_pos f p (f x))).
    rewrite !IH, Pos2Nat.inj_xI.
    replace (S (2 * Pos.to_nat p)) with (Pos.to_nat p + (Pos.to_nat p + 1))%nat by lia.
    by rewrite !Nat.iter_add.
  - change (SpecFloat.iter_pos f p~0 x)
      with (SpecFloat.iter_pos f p (SpecFloat.iter_pos f p x)).
    rewrite !IH, Pos2Nat.inj_xO.
    replace (2 * Pos.to_nat p)%nat with (Pos.to_nat p + Pos.to_nat p)%nat by lia.
    by rewrite Nat.iter_add.
  - reflexivity.
Qed.

Lemma shr_1_shl p n m :
  Nat.iter n shr_1 (Build_shr_record (Zpos (shl p (n + m))) false false)
  = Build_shr_record (Zpos (shl p m)) false false.
Proof.
  induction n as [|n IH]; [done|].
  rewrite Nat.iter_succ_r. simpl. exact IH.
Qed.

Lemma digits2_size p : digits2_pos p = Pos.size p.
Proof. induction p; simpl; congruence. Qed.

Lemma digits2_le p : (2 ^ Zpos (digits2_pos p) ≤ 2 * Zpos p)%Z.
Proof.
  rewrite digits2_size, <- Pos2Z.inj_pow. exact (Pos.size_le p).
Qed.

Lemma digits2_gt p : (Zpos p < 2 ^ Zpos (digits2_pos p))%Z.
Proof.
  rewrite digits2_size, <- Pos2Z.inj_pow. exact (Pos.size_gt p).
Qed.

Lemma digits2_bound p : (Zpos p < 2 ^ 53)%Z → (Zpos (digits2_pos p) ≤ 53)%Z.
Proof.
  intros Hp. pose proof (digits2_le p) as Hle.
  destruct (Z.le_gt_cases (Zpos (digits2_pos p)) 53) as [|Hgt]; [done|exfalso].
  assert (2 ^ 54 ≤ 2 ^ Zpos (digits2_pos p))%Z by (apply Z.pow_le_mono_r; lia).
  lia.
Qed.

Lemma digits2_mul a b :
  (Zpos (digits2_pos a) + Zpos (digits2_pos b) ≤ Zpos (digits2_pos (a * b)) + 1)%Z.
Proof.
  pose proof (digits2_le a) as Ha. pose proof (digits2_le b) as Hb.
  pose proof (digits2_gt (a * b)) as Hab. rewrite Pos2Z.inj_mul in Hab.
  set (da := Zpos (digits2_pos a)) in *. set (db := Zpos (digits2_pos b)) in *.
  set (dab := Zpos (digits2_pos (a * b))) in *.
  assert (2 ^ (da + db) < 2 ^ (dab + 2))%Z as Hlt.
  { rewrite !Z.pow_add_r by lia. change (2 ^ 2)%Z with 4%Z.
    assert (0 < 2 ^ da)%Z by (apply Z.pow_pos_nonneg; lia).
    assert (0 < 2 ^ db)%Z by (apply Z.pow_pos_nonneg; lia).
    nia. }
  apply Z.pow_lt_mono_r_iff in Hlt; lia.
Qed.

Lemma fexp_normal e : (-1074 ≤ e - 53)%Z → fexp prec emax e = (e - 53)%Z.
Proof. unfold fexp, SpecFloat.emin, prec, emax. lia. Qed.

(** A mantissa of 53 digits is kept as it is. *)
Lemma shr_fexp_full m e :
  Zpos (digits2_pos m) = 53%Z → (-1074 ≤ e)%Z →
  shr_fexp prec emax (Zpos m) e loc_Exact = (Build_shr_record (Zpos m) false false, e).
Proof.
  intros Hm He. unfold shr_fexp. simpl Zdigits2. rewrite Hm, fexp_normal by lia.
  by replace (53 + e - 53 - e)%Z with 0%Z by lia.
Qed.

Lemma binary_round_aux_full m e :
  Zpos (digits2_pos m) = 53%Z → (-1074 ≤ e ≤ 971)%Z →
  binary_round_aux prec emax false (Zpos m) e loc_Exact = S754_finite false m e.
Proof.
  intros Hm He. unfold binary_round_aux.
  rewrite shr_fexp_full by (done || lia). simpl.
  rewrite shr_fexp_full by (done || lia). simpl.
  unfold emax, prec. by replace (e <=? 1024 - 53)%Z with true by lia.
Qed.

(** Spare zeros beyond 53 digits are shifted out without rounding. *)
Lemma shr_fexp_shl p n e :
  let d := Zpos (digits2_pos p) in
  (d ≤ 53 < d + Z.of_nat n)%Z → (-1074 ≤ e + (d + Z.of_nat n - 53))%Z →
  shr_fexp prec emax (Zpos (shl p n)) e loc_Exact
  = (Build_shr_record (Zpos (shl p (Z.to_nat (53 - d)))) false false,
     (e + (d + Z.of_nat n - 53))%Z).
Proof.
  intros d Hd He. unfold shr_fexp. simpl Zdigits2.
  rewrite digits2_shl, fexp_normal by (fold d; lia). fold d.
  destruct (d + Z.of_nat n + e - 53 - e)%Z as [|q|q] eqn:Hq; try lia.
  unfold shr. rewrite iter_pos_nat. simpl shr_record_of_loc.
  replace n with (Pos.to_nat q + Z.to_nat (53 - d))%nat at 1 by lia.
  rewrite shr_1_shl. f_equal. lia.
Qed.

(** A mantissa [p * 2^n] of at least 53 digits, [p] of at most 53, is
    brought to 53 digits without rounding. *)
Lemma binary_round_aux_shl p n e :
  let d := Zpos (digits2_pos p) in
  (d ≤ 53 ≤ d + Z.of_nat n)%Z → (-1074 ≤ e + (d + Z.of_nat n - 53) ≤ 971)%Z →
  binary_round_aux prec emax false (Zpos (shl p n)) e loc_Exact
  = S754_finite false (shl p (Z.to_nat (53 - d))) (e + (d + Z.of_nat n - 53)).
Proof.
  intros d Hd He. destruct (decide (d + Z.of_nat n = 53)%Z) as [Heq|Hne].
  - replace (Z.to_nat (53 - d)) with n by lia.
    replace (e + (d + Z.of_nat n - 53))%Z with e by lia.
    apply binary_round_aux_full; [|lia]. rewrite digits2_shl. fold d. lia.
  - unfold binary_round_aux.
    rewrite shr_fexp_shl by (fold d; lia). fold d. simpl.
    rewrite shr_fexp_full; [| rewrite digits2_shl; fold d; lia | lia]. simpl.
    unfold emax, prec.
    by replace (e + (d + Z.of_nat n - 53) <=? 1024 - 53)%Z with true by lia.
Qed.

(** Rounding the value [p * 2^k], given with [n] spare zeros in the
    mantissa, when [p] fits the 53-bit precision. *)
Lemma binary_round_shl p n k :
  let d := Zpos (digits2_pos p) in
  (d ≤ 53)%Z → (-1074 ≤ d + k - 53)%Z → (k ≤ 971)%Z →
  binary_round prec emax false (shl p n) (k - Z.of_nat n)
  = S754_finite false (shl p (Z.to_nat (53 - d))) (d + k - 53).
Proof.
  intros d Hd Hlo Hhi. unfold binary_round.
  rewrite digits2_shl, fexp_normal by (fold d; lia). fold d.
  unfold shl_align.
  destruct (d + Z.of_nat n + (k - Z.of_nat n) - 53 - (k - Z.of_nat n))%Z
    as [|q|q] eqn:Hq.
  - rewrite binary_round_aux_shl by (fold d; lia). fold d. f_equal. lia.
  - rewrite binary_round_aux_shl by (fold d; lia). fold d. f_equal. lia.
  - rewrite Pos_iter_xO, shl_add.
    rewrite binary_round_aux_shl by (fold d; lia). fold d. f_equal; lia.
Qed.

Lemma SFof_pos k p :
  let d := Zpos (digits2_pos p) in
  (Zpos p < 2 ^ 53)%Z → (-1022 ≤ k ≤ 971)%Z →
  SFof k (Zpos p) = S754_finite false (shl p (Z.to_nat (53 - d))) (d + k - 53).
Proof.
  intros d Hp Hk. pose proof (digits2_bound p Hp).
  unfold SFof, binary_normalize.
  replace k with (k - Z.of_nat 0)%Z at 1 by lia.
  change p with (shl p 0) at 1. apply binary_round_shl; fold d; lia.
Qed.

Lemma SFof_valid k n :
  (0 ≤ n < 2 ^ 53)%Z → (-1022 ≤ k ≤ 971)%Z → valid_binary (SFof k n) = true.
Proof.
  intros Hn Hk. destruct n as [|p|p]; [done| |lia].
  rewrite SFof_pos by lia. pose proof (digits2_bound p ltac:(lia)).
  unfold SpecFloat.valid_binary, bounded, canonical_mantissa.
  rewrite digits2_shl, fexp_normal by lia.
  apply andb_true_iff. split; [apply Z.eqb_eq | apply Z.leb_le]; unfold emax, prec; lia.
Qed.

Lemma SFadd_SFof k a b :
  (0 ≤ a)%Z → (0 ≤ b)%Z → (a + b < 2 ^ 53)%Z → (-1022 ≤ k ≤ 971)%Z →
  SF64add (SFof k a) (SFof k b) = SFof k (a + b).
Proof.
  intros Ha Hb Hab Hk.
  destruct a as [|pa|pa]; [|clear Ha|lia].
  { destruct b as [|pb|pb]; [done| |lia]. rewrite Z.add_0_l, SFof_pos by lia. done. }
  destruct b as [|pb|pb]; [|clear Hb|lia].
  { rewrite Z.add_0_r, SFof_pos by lia. done. }
  change (Zpos pa + Zpos pb)%Z with (Zpos (pa + pb)) in *.
  pose proof (digits2_bound pa ltac:(lia)) as Hda.
  pose proof (digits2_bound pb ltac:(lia)) as Hdb.
  pose proof (digits2_bound (pa + pb) ltac:(lia)) as Hdab.
  rewrite !SFof_pos by lia.
  set (da := Zpos (digits2_pos pa)) in *. set (db := Zpos (digits2_pos pb)) in *.
  set (dab := Zpos (digits2_pos (pa + pb))) in *.
  unfold SF64add, SFadd, binary_normalize, cond_Zopp.
  destruct (Z.min_spec (da + k - 53) (db + k - 53)) as [[Hlt ->]|[Hle ->]].
  - (* the first operand has the smaller exponent *)
    unfold shl_align. rewrite Z.sub_diag.
    destruct (da + k - 53 - (db + k - 53))%Z as [|q|q] eqn:Hq; try lia.
    cbn [fst]. rewrite Pos_iter_xO, shl_add.
    replace (Z.to_nat (53 - db) + Pos.to_nat q)%nat with (Z.to_nat (53 - da)) by lia.
    change (Zpos ?x + Zpos ?y)%Z with (Zpos (x + y)). rewrite shl_plus.
    replace (da + k - 53)%Z with (k - Z.of_nat (Z.to_nat (53 - da)))%Z by lia.
    rewrite binary_round_shl by (fold dab; lia). done.
  - unfold shl_align. rewrite Z.sub_diag.
    destruct (db + k - 53 - (da + k - 53))%Z as [|q|q] eqn:Hq; try lia.
    + cbn [fst]. replace (Z.to_nat (53 - da)) with (Z.to_nat (53 - db)) by lia.
      change (Zpos ?x + Zpos ?y)%Z with (Zpos (x + y)). rewrite shl_plus.
      replace (db + k - 53)%Z with (k - Z.of_nat (Z.to_nat (53 - db)))%Z by lia.
      rewrite binary_round_shl by (fold dab; lia). done.
    + cbn [fst]. rewrite Pos_iter_xO, shl_add.
      replace (Z.to_nat (53 - da) + Pos.to_nat q)%nat with (Z.to_nat (53 - db)) by lia.
      change (Zpos ?x + Zpos ?y)%Z with (Zpos (x + y)). rewrite shl_plus.
      replace (db + k - 53)%Z with (k - Z.of_nat (Z.to_nat (53 - db)))%Z by lia.
      rewrite binary_round_shl by (fold dab; lia). done.
Qed.

Lemma SFmul_SFof k1 k2 a b :
  (0 ≤ a < 2 ^ 53)%Z → (0 ≤ b < 2 ^ 53)%Z → (a * b < 2 ^ 53)%Z →
  (-1022 ≤ k1 ≤ 971)%Z → (-1022 ≤ k2 ≤ 971)%Z → (-1022 ≤ k1 + k2 ≤ 971)%Z →
  SF64mul (SFof k1 a) (SFof k2 b) = SFof (k1 + k2) (a * b).
Proof.
  intros Ha Hb Hab Hk1 Hk2 Hk.
  destruct a as [|pa|pa]; [| |lia].
  { destruct b as [|pb|pb]; [done| |lia]. by rewrite SFof_pos by lia. }
  destruct b as [|pb|pb]; [| |lia].
  { rewrite Z.mul_0_r, SFof_pos by lia. done. }
  change (Zpos pa * Zpos pb)%Z with (Zpos (pa * pb)) in *.
  pose proof (digits2_bound pa ltac:(lia)) as Hda.
  pose proof (digits2_bound pb ltac:(lia)) as Hdb.
  pose proof (digits2_bound (pa * pb) ltac:(lia)) as Hdab.
  rewrite !SFof_pos by lia.
  set (da := Zpos (digits2_pos pa)) in *. set (db := Zpos (digits2_pos pb)) in *.
  set (dab := Zpos (digits2_pos (pa * pb))) in *.
  pose proof (digits2_mul pa pb) as Hmul. fold da db dab in Hmul.
  unfold SF64mul, SFmul. cbn [xorb]. rewrite shl_mul.
  rewrite binary_round_aux_shl by (fold dab; lia). fold dab.
  f_equal. lia.
Qed.

Lemma grid_mul k1 k2 a b :
  (0 ≤ a < 2 ^ 53)%Z → (0 ≤ b < 2 ^ 53)%Z → (a * b < 2 ^ 53)%Z →
  (-1022 ≤ k1 ≤ 971)%Z → (-1022 ≤ k2 ≤ 971)%Z → (-1022 ≤ k1 + k2 ≤ 971)%Z →
  (grid k1 a * grid k2 b)%float = grid (k1 + k2) (a * b).
Proof.
  intros Ha Hb Hab Hk1 Hk2 Hk. apply Prim2SF_inj. unfold grid.
  rewrite mul_spec, !Prim2SF_SF2Prim by (apply SFof_valid; lia).
  by apply SFmul_SFof.
Qed.

Lemma grid_add k a b :
  (0 ≤ a)%Z → (0 ≤ b)%Z → (a + b < 2 ^ 53)%Z → (-1022 ≤ k ≤ 971)%Z →
  (grid k a + grid k b)%float = grid k (a + b).
Proof.
  intros Ha Hb Hab Hk. apply Prim2SF_inj. unfold grid.
  rewrite add_spec, !Prim2SF_SF2Prim by (apply SFof_valid; lia).
  by apply SFadd_SFof.
Qed.

Lemma units_nonneg k x : (0 ≤ units k x)%Z.
Proof.
  unfold units. destruct (Prim2SF x) as [| | |[] m e]; try done.
  by apply Z.shiftl_nonneg.
Qed.

Lemma Zsum_Permutation ns ms : ns ≡ₚ ms → Zsum ns = Zsum ms.
Proof. unfold Zsum. induction 1; simpl; lia. Qed.

Lemma Zsum_nonneg ns : Forall (Z.le 0) ns → (0 ≤ Zsum ns)%Z.
Proof. unfold Zsum. induction 1; simpl; lia. Qed.

Lemma Zsum_elem ns n : Forall (Z.le 0) ns → n ∈ ns → (n ≤ Zsum ns)%Z.
Proof.
  intros Hns. induction Hns as [|m ns Hm Hns IH]; [by intros ?%elem_of_nil|].
  pose proof (Zsum_nonneg ns Hns). unfold Zsum in *. simpl.
  intros [->|Hin]%elem_of_cons; [lia|]. specialize (IH Hin). lia.
Qed.

(** Sixteen times a sum bounds the sum of the terms scaled by at most 16. *)
Lemma Zsum_scaled {A} (q c : A → Z) (l : list A) :
  Forall (fun r => 0 ≤ q r ≤ 16 ∧ 0 ≤ c r)%Z l →
  (0 ≤ Zsum (map (fun r => q r * c r) l) ≤ 16 * Zsum (map c l))%Z.
Proof. unfold Zsum. induction 1 as [|r l [Hq Hc] Hl IH]; simpl; nia. Qed.

Lemma fold_add_grid k ns acc :
  (-1022 ≤ k ≤ 971)%Z → Forall (Z.le 0) ns →
  (0 ≤ acc)%Z → (acc + Zsum ns < 2 ^ 53)%Z →
  fold_left PrimFloat.add (map (grid k) ns) (grid k acc) = grid k (acc + Zsum ns).
Proof.
  intros Hk Hns. revert acc.
  induction Hns as [|n ns Hn Hns IH]; intros acc Hacc Hlt.
  - unfold Zsum. simpl. by rewrite Z.add_0_r.
  - pose proof (Zsum_nonneg ns Hns). unfold Zsum in *. simpl in *.
    rewrite grid_add by lia. rewrite IH by lia. f_equal. lia.
Qed.

Lemma sum_grid k ns :
  (-1022 ≤ k ≤ 971)%Z → Forall (Z.le 0) ns → (Zsum ns < 2 ^ 53)%Z →
  sum (map (grid k) ns) = grid k (Zsum ns).
Proof.
  intros Hk Hns Hlt. unfold sum. change 0%float with (grid k 0).
  by rewrite fold_add_grid by (done || lia).
Qed.

(** The grade points of the table are quarters, at most sixteen of them. *)
Lemma points_quarters b :
  points b = grid (-2) (units (-2) (points b)) ∧ (units (-2) (points b) ≤ 16)%Z.
Proof. by destruct b. Qed.

(** The two totals of summable records, with no rounding on the way. *)
Lemma reduce_summable k (l : list GradeRecord.t) :
  (-1020 ≤ k ≤ 971)%Z →
  Forall (summable k) l →
  (16 * total_units k (credits l) < 2 ^ 53)%Z →
  reduce l =
  {| totalGPA :=
       grid (-2 + k)
         (Zsum (map (fun r => units (-2) (GradeRecord.gpa r)
                              * units k (GradeRecord.creditHours r))%Z l));
     totalCredit := grid k (total_units k (credits l)) |}.
Proof.
  intros Hk Hl Hlt. rewrite reduce_sums.
  set (q := fun r => units (-2) (GradeRecord.gpa r)).
  set (c := fun r => units k (GradeRecord.creditHours r)).
  assert (total_units k (credits l) = Zsum (map c l)) as Htot.
  { unfold total_units, credits. by rewrite map_map. }
  rewrite Htot in *.
  assert (Forall (Z.le 0) (map c l)) as Hc0.
  { apply Forall_fmap, Forall_true. intros r. apply units_nonneg. }
  pose proof (Zsum_nonneg _ Hc0) as Hc0'.
  assert (Forall (fun r => 0 ≤ q r ≤ 16 ∧ 0 ≤ c r)%Z l) as Hqc.
  { eapply Forall_impl; [exact Hl|]. intros r [[b Hb] _]. unfold q, c.
    rewrite Hb. pose proof (points_quarters b) as [_ ?].
    pose proof (units_nonneg (-2) (points b)). pose proof (units_nonneg k (GradeRecord.creditHours r)).
    lia. }
  pose proof (Zsum_scaled q c l Hqc) as Hw.
  assert (credits l = map (grid k) (map c l)) as ->.
  { unfold credits. rewrite map_map. apply Forall_fmap_ext_1.
    eapply Forall_impl; [exact Hl|]. by intros r [_ Hr]. }
  assert (weighted l = map (grid (-2 + k)) (map (fun r => q r * c r)%Z l)) as ->.
  { unfold weighted. rewrite map_map. apply Forall_fmap_ext_1.
    apply Forall_forall. intros r Hr.
    pose proof (proj1 (Forall_forall _ _) Hl r Hr) as [[b Hb] Hcr].
    pose proof (proj1 (Forall_forall _ _) Hqc r Hr) as [Hqr Hcr0].
    assert (c r ≤ Zsum (map c l))%Z
      by (apply Zsum_elem; [done | by apply list_elem_of_fmap_2]).
    rewrite Hcr at 1. rewrite Hb at 1. rewrite (proj1 (points_quarters b)).
    rewrite grid_mul; [by rewrite <- Hb | | | | lia | lia | lia]; fold (c r);
      rewrite <- ?Hb; fold (q r); nia. }
  rewrite !sum_grid; try done; try lia.
  apply Forall_forall. intros n (r & -> & Hr)%list_elem_of_fmap.
  pose proof (proj1 (Forall_forall _ _) Hqc r Hr) as [[? ?] ?].
  by apply Z.mul_nonneg_nonneg.
Qed.

(** C7 as stated fails: adding the credit hours 0.1, 0.2 and 0.3 in the two
    orders gives two different totals. *)
Lemma cumulativeGPA_order_dependent :
  let l := [sample_record 4 0.1; sample_record 4 0.2; sample_record 4 0.3] in
  let l' := [sample_record 4 0.3; sample_record 4 0.2; sample_record 4 0.1] in
  l ≡ₚ l' ∧
  creditTotal (cumulativeGPA l) = 0.6000000000000001%float ∧
  creditTotal (cumulativeGPA l') = 0.6%float ∧
  creditTotal (cumulativeGPA l) ≠ creditTotal (cumulativeGPA l').
Proof.
  split; [|split; [reflexivity|split; [reflexivity|]]].
  - rewrite <- (reverse_Permutation [sample_record 4 0.1; sample_record 4 0.2; sample_record 4 0.3]).
    reflexivity.
  - intros H.
    apply (f_equal (fun x => PrimFloat.eqb x 0.6)) in H. vm_compute in H. discriminate.
Qed.

(** C7, where no addition rounds.  When every record carries a grade point
    of the table and credit hours that are a whole, non-negative number of
    units of one power of two [2^k] (whole, half or quarter hours, say),
    and sixteen times the total of the credit hours stays below [2^53]
    units, the result of the GPA computation, [gpa] and [creditTotal], is
    the same for every reordering of the records. *)
Theorem cumulativeGPA_permutation_exact (k : Z) (l l' : list GradeRecord.t) :
  (-1020 ≤ k ≤ 971)%Z →
  Forall (summable k) l →
  (16 * total_units k (credits l) < 2 ^ 53)%Z →
  l ≡ₚ l' →
  cumulativeGPA l = cumulativeGPA l'.
Proof.
  intros Hk Hl Hlt Hperm.
  assert (total_units k (credits l) = total_units k (credits l')) as Htot.
  { unfold total_units, credits. apply Zsum_Permutation. by rewrite Hperm. }
  assert (reduce l = reduce l') as Hred.
  { rewrite (reduce_summable k l), (reduce_summable k l'); try done.
    - rewrite Htot. do 2 f_equal. apply Zsum_Permutation. by rewrite Hperm.
    - by rewrite <- Hperm.
    - by rewrite <- Htot. }
  unfold cumulativeGPA. by rewrite Hred, (Permutation_length Hperm).
Qed.

Lemma cumulativeGPA_permutation_exact_witness :
  cumulativeGPA [sample_record 4 3; sample_record 2.5 1.5; sample_record 3.75 2]
  = cumulativeGPA [sample_record 3.75 2; sample_record 4 3; sample_record 2.5 1.5].
Proof.
  apply (cumulativeGPA_permutation_exact (-1)).
  - lia.
  - repeat constructor;
      first [by exists APlus | by exists CPlus | by exists A].
  - vm_compute. reflexivity.
  - change [sample_record 3.75 2; sample_record 4 3; sample_record 2.5 1.5]
      with ([sample_record 3.75 2] ++ [sample_record 4 3; sample_record 2.5 1.5])%list.
    change [sample_record 4 3; sample_record 2.5 1.5; sample_record 3.75 2]
      with ([sample_record 4 3; sample_record 2.5 1.5] ++ [sample_record 3.75 2])%list.
    apply Permutation_app_comm.
Defined.

(** ** Monotone grading *)

Lemma SFleb_trans x y z :
  SFleb x y = true → SFleb y z = true → SFleb x z = true.
Proof.
  unfold SFleb.
  destruct x as [[]|[]| |[] mx ex], y as [[]|[]| |[] my ey],
           z as [[]|[]| |[] mz ez];
    simpl; try discriminate; try reflexivity; intros;
    repeat match goal with
    | H : context [Z.compare ?a ?b] |- _ => destruct (Z.compare_spec a b)
    | |- context [Z.compare ?a ?b] => destruct (Z.compare_spec a b)
    | H : context [Pos.compare_cont Eq ?a ?b] |- _ =>
        change (Pos.compare_cont Eq a b) with (Pos.compare a b) in H;
        destruct (Pos.compare_spec a b)
    | |- context [Pos.compare_cont Eq ?a ?b] =>
        change (Pos.compare_cont Eq a b) with (Pos.compare a b);
        destruct (Pos.compare_spec a b)
    end; simpl in *; try discriminate; try reflexivity; try lia.
Qed.

Lemma ge_mono (s t th : float) :
  PrimFloat.leb s t = true → JS.ge s th = true → JS.ge t th = true.
Proof.
  unfold JS.ge. rewrite !leb_spec. intros Hst Hth. by eapply SFleb_trans.
Qed.

(** X1.  Grading is monotone: a score that is at least another score gets
    at least its grade points. *)
Theorem getGPA_monotone (s t : float) :
  PrimFloat.leb s t = true →
  PrimFloat.leb (getGPA s) (getGPA t) = true.
Proof.
  intros Hst. pose proof (fun th => ge_mono s t th Hst) as Hmono.
  unfold getGPA.
  destruct (JS.ge s 85) eqn:H85; [by rewrite (Hmono _ H85)|].
  destruct (JS.ge s 75) eqn:H75;
    [rewrite (Hmono _ H75); by destruct (JS.ge t 85)|].
  destruct (JS.ge s 70) eqn:H70;
    [rewrite (Hmono _ H70); by destruct (JS.ge t 85), (JS.ge t 75)|].
  destruct (JS.ge s 65) eqn:H65;
    [rewrite (Hmono _ H65); by destruct (JS.ge t 85), (JS.ge t 75), (JS.ge t 70)|].
  destruct (JS.ge s 60) eqn:H60;
    [rewrite (Hmono _ H60);
     by destruct (JS.ge t 85), (JS.ge t 75), (JS.ge t 70), (JS.ge t 65)|].
  destruct (JS.ge s 50) eqn:H50;
    [rewrite (Hmono _ H50);
     by destruct (JS.ge t 85), (JS.ge t 75), (JS.ge t 70), (JS.ge t 65), (JS.ge t 60)|].
  by destruct (JS.ge t 85), (JS.ge t 75), (JS.ge t 70), (JS.ge t 65), (JS.ge t 60),
              (JS.ge t 50).
Qed.

Lemma getGPA_monotone_witness :
  PrimFloat.leb (getGPA 64.5) (getGPA 91) = true.
Proof. apply (getGPA_monotone 64.5 91). reflexivity. Defined.

(** ** The grade-record store *)

Lemma remove_grade_sublist id uid (c : GradeCollection) :
  (remove_grade id uid c).2 `sublist_of` c.
Proof.
  induction c as [|d c IH]; simpl; [done|].
  case_bool_decide; simpl; [by apply sublist_cons|].
  destruct (remove_grade id uid c) as [deleted c'']. simpl in *.
  by apply sublist_skip.
Qed.

Lemma remove_grade_none id uid (c : GradeCollection) :
  (∀ r, (id, r) ∈ c → GradeRecord.userId r ≠ uid) →
  remove_grade id uid c = (None, c).
Proof.
  induction c as [|[i r] c IH]; intros Hno; simpl; [done|].
  rewrite bool_decide_eq_false_2.
  - rewrite IH; [done|]. intros r' Hr'. apply Hno. by right.
  - simpl. intros [-> Hu]. by apply (Hno r); [left|].
Qed.

Lemma filter_other_ids (id : oid) (c : GradeCollection) :
  id ∉ c.*1 → filter (fun d => d.1 ≠ id) c = c.
Proof.
  induction c as [|[i r] c IH]; intros Hid; [done|].
  simpl in Hid. apply not_elem_of_cons in Hid as [Hne Hid].
  rewrite filter_cons_True by (simpl; congruence). by rewrite IH.
Qed.

Lemma remove_grade_some id uid (c : GradeCollection) r :
  NoDup c.*1 → (id, r) ∈ c → GradeRecord.userId r = uid →
  remove_grade id uid c =
  (Some (id, r), filter (fun d => d.1 ≠ id) c).
Proof.
  induction c as [|[i r'] c IH]; intros Hnd Hin Hu; [by apply elem_of_nil in Hin|].
  simpl in Hnd. apply NoDup_cons in Hnd as [Hi Hnd]. simpl.
  apply elem_of_cons in Hin as [Heq|Hin].
  - simplify_eq. rewrite bool_decide_eq_true_2 by done.
    rewrite filter_cons_False by (simpl; naive_solver).
    by rewrite filter_other_ids.
  - assert (i ≠ id) as Hne.
    { intros ->. apply Hi. apply list_elem_of_fmap. by exists (id, r). }
    rewrite bool_decide_eq_false_2 by (simpl; naive_solver).
    rewrite (IH Hnd Hin Hu). by rewrite filter_cons_True.
Qed.

Lemma post_grades_cases uid body id now (c : GradeCollection) :
  (∃ course score hours,
     b_course body = Some course ∧ course ≠ "" ∧ b_score body = Some score ∧
     b_creditHours body = Some hours ∧ uid ≠ "" ∧ (id ∉ c.*1) ∧
     post_grades uid body id now c =
     (Json 201 (id, GradeRecord.mk uid course score hours (getGrade score) (getGPA score) now),
      (c ++ [(id, GradeRecord.mk uid course score hours (getGrade score) (getGPA score) now)])%list)) ∨
  post_grades uid body id now c = (Message 500 "Error saving grade record", c).
Proof.
  unfold post_grades.
  destruct (b_score body) as [score|]; [|by right].
  destruct (b_creditHours body) as [hours|]; [|by right].
  destruct (required (Some uid)) eqn:Hu; [|by right].
  destruct (required (b_course body)) eqn:Hc; [|by right].
  case_bool_decide as Hid; [by right|]. left.
  apply Boolean_true in Hu as (u & [= <-] & Hu).
  apply Boolean_true in Hc as (course & Hcourse & Hc).
  exists course, score, hours. rewrite Hcourse. by repeat split.
Qed.

(** X2.  Deleting a grade record.  In a collection with distinct ids, the
    owner's request removes exactly the record with that id, keeps the
    other records in their order and answers 204; a request for an object
    id that is not stored, or stored for another owner, answers 404 and
    removes nothing; a request whose id is no object id answers 500 and
    removes nothing. *)
Theorem delete_grade_effect (uid : string) (id : oid) (c : GradeCollection) :
  NoDup c.*1 →
  (∀ r, (id, r) ∈ c → GradeRecord.userId r = uid →
        delete_grade uid (Some id) c = (Empty 204, filter (fun d => d.1 ≠ id) c)) ∧
  ((∀ r, (id, r) ∈ c → GradeRecord.userId r ≠ uid) →
   delete_grade uid (Some id) c = (Message 404 "Record not found or access denied", c)) ∧
  delete_grade uid None c = (Message 500 "Error deleting record", c).
Proof.
  intros Hnd. unfold delete_grade, findOneAndDelete_grade. split; [|split; [|done]].
  - intros r Hin Hu. by rewrite (remove_grade_some id uid c r).
  - intros Hno. by rewrite remove_grade_none.
Qed.

Lemma delete_grade_effect_witness :
  delete_grade "u1" (Some 1%N) sample_grades
    = (Empty 204, [(2%N, GradeRecord.mk "u2" "Physics" 62 2 "C+" 2.5 1);
                   (3%N, GradeRecord.mk "u1" "History" 77 1.5 "A" 3.75 2)]) ∧
  delete_grade "u1" (Some 2%N) sample_grades
    = (Message 404 "Record not found or access denied", sample_grades) ∧
  delete_grade "u1" None sample_grades
    = (Message 500 "Error deleting record", sample_grades).
Proof.
  assert (NoDup sample_grades.*1) as Hnd.
  { simpl. repeat (apply NoDup_cons_2; [set_solver|]). apply NoDup_nil_2. }
  destruct (delete_grade_effect "u1" 1%N sample_grades Hnd) as (Howned & _ & Hcast).
  destruct (delete_grade_effect "u1" 2%N sample_grades Hnd) as (_ & Hother & _).
  split; [|split; [|exact Hcast]].
  - apply (Howned (GradeRecord.mk "u1" "Algebra" 90 3 "A+" 4 0)); [by left|done].
  - apply Hother. intros r Hin. by set_solver.
Defined.

Lemma grade_step_ok c request : grades_ok c → grades_ok (grade_step c request).
Proof.
  intros [Hnd Hgr]. destruct request as [uid [body id now| | |[id|]]]; simpl; try done.
  - destruct (post_grades_cases uid body id now c)
      as [(course & score & hours & _ & _ & _ & _ & _ & Hid & ->)| ->]; [|done].
    simpl. split.
    + rewrite fmap_app. apply NoDup_app. split; [done|]. split.
      * intros i Hi [->|[]%elem_of_nil]%elem_of_cons. done.
      * simpl. apply NoDup_singleton.
    + apply Forall_app. split; [done|]. by repeat constructor.
  - unfold delete_grade, findOneAndDelete_grade.
    pose proof (remove_grade_sublist id uid c) as Hsub.
    assert (grades_ok (remove_grade id uid c).2) as Hok.
    { split.
      - eapply sublist_NoDup; [exact Hnd | by apply fmap_sublist].
      - apply Forall_forall. intros d Hd.
        apply (proj1 (Forall_forall _ _) Hgr). by eapply elem_of_sublist. }
    by destruct (remove_grade id uid c) as [[deleted|] c'].
Qed.

(** X3.  Whatever requests the grade-record routes serve, from whichever
    callers, starting from the empty collection, the stored records keep
    distinct ids and each carries the letter grade and the grade point
    that [getGrade] and [getGPA] give for its stored score. *)
Theorem grade_run_ok (requests : list (string * grade_request)) :
  NoDup (grade_run [] requests).*1 ∧
  ∀ id r, (id, r) ∈ grade_run [] requests →
          GradeRecord.grade r = getGrade (GradeRecord.score r) ∧
          GradeRecord.gpa r = getGPA (GradeRecord.score r).
Proof.
  assert (grades_ok (grade_run [] requests)) as [Hnd Hgr].
  { unfold grade_run. assert (grades_ok []) as Hinit by (split; constructor).
    revert Hinit. generalize (@nil (oid * GradeRecord.t)).
    induction requests as [|request requests IH]; intros c Hc; [done|].
    simpl. by apply IH, grade_step_ok. }
  split; [done|]. intros id r Hin.
  exact (proj1 (Forall_forall _ _) Hgr (id, r) Hin).
Qed.

Lemma remove_grade_others id uid uid' (c : GradeCollection) :
  uid' ≠ uid →
  filter (fun d => GradeRecord.userId d.2 = uid) (remove_grade id uid' c).2
  = filter (fun d => GradeRecord.userId d.2 = uid) c.
Proof.
  intros Hne. induction c as [|d c IH]; simpl; [done|].
  case_bool_decide as Hd; simpl.
  - rewrite filter_cons_False; [done|]. destruct Hd as [_ Hd]. congruence.
  - destruct (remove_grade id uid' c) as [deleted c'']. simpl in *.
    by rewrite !filter_cons, IH.
Qed.

Lemma grade_step_others uid c request :
  request.1 ≠ uid →
  filter (fun d => GradeRecord.userId d.2 = uid) (grade_step c request)
  = filter (fun d => GradeRecord.userId d.2 = uid) c.
Proof.
  destruct request as [uid' [body id now| | |[id|]]]; simpl; intros Hne; try done.
  - destruct (post_grades_cases uid' body id now c)
      as [(course & score & hours & _ & _ & _ & _ & _ & _ & ->)| ->]; [|done].
    simpl. rewrite filter_app, filter_cons_False by (simpl; congruence).
    by rewrite filter_nil, app_nil_r.
  - unfold delete_grade, findOneAndDelete_grade.
    pose proof (remove_grade_others id uid uid' c Hne) as Hothers.
    by destruct (remove_grade id uid' c) as [[deleted|] c'].
Qed.

(** X4.  The grade list and the GPA of a user depend on that user's own
    requests only: after any sequence of requests of other callers, [GET
    /api/grades] and [GET /api/gpa] answer the user as they did before. *)
Theorem grades_isolated (uid : string) (c : GradeCollection)
    (requests : list (string * grade_request)) :
  Forall (fun request => request.1 ≠ uid) requests →
  get_grades uid (grade_run c requests) = get_grades uid c ∧
  get_gpa uid (grade_run c requests) = get_gpa uid c.
Proof.
  intros Hothers.
  assert (filter (fun d => GradeRecord.userId d.2 = uid) (grade_run c requests)
          = filter (fun d => GradeRecord.userId d.2 = uid) c) as Hsame.
  { unfold grade_run. revert c.
    induction Hothers as [|request requests Hne Hothers IH]; intros c; [done|].
    simpl. by rewrite IH, grade_step_others. }
  unfold get_grades, get_gpa, find_grades. by rewrite Hsame.
Qed.

Lemma grades_isolated_witness :
  get_grades "u1" (grade_run sample_grades
                     [("u2", DeleteGrade (Some 2%N)); ("u2", DeleteGrade (Some 1%N));
                      ("u3", PostGrades (mkGradeBody (Some "Art") (Some 55%float) (Some 2%float))
                               9%N 5)])
    = get_grades "u1" sample_grades ∧
  get_gpa "u1" (grade_run sample_grades
                  [("u2", DeleteGrade (Some 2%N)); ("u2", DeleteGrade (Some 1%N));
                   ("u3", PostGrades (mkGradeBody (Some "Art") (Some 55%float) (Some 2%float))
                            9%N 5)])
    = get_gpa "u1" sample_grades.
Proof.
  apply (grades_isolated "u1" sample_grades). repeat constructor; discriminate.
Defined.

Lemma creditTotal_sum records :
  creditTotal (cumulativeGPA records) = sum (credits records).
Proof. destruct records; [done|]. by rewrite cumulativeGPA_cons. Qed.

Lemma sum_snoc xs x : sum (xs ++ [x]) = (sum xs + x)%float.
Proof. unfold sum. by rewrite fold_left_app. Qed.

(** X5.  Creation and listing compose: when [POST /api/grades] answers 201
    with a record, that record belongs to the caller, the caller's grade
    list is the former list followed by the record, and the credit total
    of the caller's GPA is the former total plus the record's credit
    hours. *)
Theorem post_grades_then_list
    (uid : string) (body : GradeBody) (id : oid) (now : Z)
    (c c' : GradeCollection) (r : GradeRecord.t) :
  post_grades uid body id now c = (Json 201 (id, r), c') →
  GradeRecord.userId r = uid ∧
  get_grades uid c' =
    Json 200 (filter (fun d => GradeRecord.userId d.2 = uid) c ++ [(id, r)])%list ∧
  ∃ before after,
    get_gpa uid c = Json 200 before ∧ get_gpa uid c' = Json 200 after ∧
    creditTotal after = (creditTotal before + GradeRecord.creditHours r)%float.
Proof.
  intros Hpost.
  destruct (post_grades_cases uid body id now c)
    as [(course & score & hours & _ & _ & _ & _ & _ & _ & Heq)|Heq];
    rewrite Heq in Hpost; [|done]. simplify_eq. split; [done|].
  assert (filter (fun d => GradeRecord.userId d.2 = uid)
            (c ++ [(id, GradeRecord.mk uid course score hours (getGrade score)
                          (getGPA score) now)])%list
          = (filter (fun d => GradeRecord.userId d.2 = uid) c
             ++ [(id, GradeRecord.mk uid course score hours (getGrade score)
                        (getGPA score) now)])%list) as Hfilter.
  { by rewrite filter_app, filter_cons_True. }
  split; [unfold get_grades; by rewrite Hfilter|].
  eexists _, _. split; [done|]. split; [done|].
  rewrite !creditTotal_sum. unfold find_grades. rewrite Hfilter.
  rewrite fmap_app. unfold credits. rewrite map_app. apply sum_snoc.
Qed.

Lemma post_grades_then_list_witness :
  GradeRecord.userId (GradeRecord.mk "u1" "Art" 55 2 "C" 2 5) = "u1" ∧
  get_grades "u1"
    (sample_grades ++ [(9%N, GradeRecord.mk "u1" "Art" 55 2 "C" 2 5)])%list =
    Json 200 (filter (fun d => GradeRecord.userId d.2 = "u1") sample_grades
              ++ [(9%N, GradeRecord.mk "u1" "Art" 55 2 "C" 2 5)])%list ∧
  ∃ before after,
    get_gpa "u1" sample_grades = Json 200 before ∧
    get_gpa "u1" (sample_grades ++ [(9%N, GradeRecord.mk "u1" "Art" 55 2 "C" 2 5)])%list
      = Json 200 after ∧
    creditTotal after = (creditTotal before + 2)%float.
Proof.
  apply (post_grades_then_list "u1"
           (mkGradeBody (Some "Art") (Some 55%float) (Some 2%float)) 9%N 5 sample_grades).
  reflexivity.
Defined.

Lemma remove_grade_last id uid (c : GradeCollection) r :
  id ∉ c.*1 → GradeRecord.userId r = uid →
  remove_grade id uid (c ++ [(id, r)]) = (Some (id, r), c).
Proof.
  intros Hid Hu. induction c as [|[i r'] c IH]; simpl.
  - by rewrite bool_decide_eq_true_2.
  - simpl in Hid. apply not_elem_of_cons in Hid as [Hne Hid].
    rewrite bool_decide_eq_false_2 by (simpl; naive_solver).
    by rewrite IH.
Qed.

(** X6.  Creation and deletion of a grade record round-trip: deleting the
    record that [POST /api/grades] has just created, by the same caller,
    answers 204 and gives back the collection as it was before the
    creation. *)
Theorem post_then_delete_grade
    (uid : string) (body : GradeBody) (id : oid) (now : Z)
    (c c' : GradeCollection) (r : GradeRecord.t) :
  post_grades uid body id now c = (Json 201 (id, r), c') →
  delete_grade uid (Some id) c' = (Empty 204, c).
Proof.
  intros Hpost.
  destruct (post_grades_cases uid body id now c)
    as [(course & score & hours & _ & _ & _ & _ & _ & Hid & Heq)|Heq];
    rewrite Heq in Hpost; [|done]. simplify_eq.
  unfold delete_grade, findOneAndDelete_grade. by rewrite remove_grade_last.
Qed.

Lemma post_then_delete_grade_witness :
  delete_grade "u1" (Some 9%N)
    (sample_grades ++ [(9%N, GradeRecord.mk "u1" "Art" 55 2 "C" 2 5)])%list
  = (Empty 204, sample_grades).
Proof.
  apply (post_then_delete_grade "u1"
           (mkGradeBody (Some "Art") (Some 55%float) (Some 2%float)) 9%N 5
           sample_grades _ (GradeRecord.mk "u1" "Art" 55 2 "C" 2 5)).
  reflexivity.
Defined.

(** ** The note store *)

(** X7.  The three views never overlap, and a note whose state flags are
    booleans is in exactly one of them: a stored note of the caller is
    listed in exactly one of the default, archive and deleted views when
    it is in the trash, or out of it with an archive flag that is not
    null, and in none otherwise (a null [isDeleted], or a null
    [isArchived] out of the trash).  A [view] parameter other than
    ["deleted"] and ["archive"] lists what the default view lists. *)
Theorem views_partition (uid : string) (c : NoteCollection) (id : oid) (n : Note.t) :
  c !! id = Some n → Note.userId n = uid →
  let default := listed uid None c (id, n) in
  let archive := listed uid (Some "archive") c (id, n) in
  let deleted := listed uid (Some "deleted") c (id, n) in
  (((default ∧ ¬ archive ∧ ¬ deleted) ∨
    (¬ default ∧ archive ∧ ¬ deleted) ∨
    (¬ default ∧ ¬ archive ∧ deleted)) ↔
   Note.isDeleted n = Some true ∨
   (Note.isDeleted n = Some false ∧ Note.isArchived n ≠ None)) ∧
  ((¬ default ∧ ¬ archive ∧ ¬ deleted) ↔
   Note.isDeleted n = None ∨
   (Note.isDeleted n = Some false ∧ Note.isArchived n = None)) ∧
  ∀ view, view ≠ Some "deleted" → view ≠ Some "archive" →
          (listed uid view c (id, n) ↔ default).
Proof.
  intros Hc Hu. cbv zeta. split; [|split].
  - rewrite !listed_spec. unfold selected, active. simpl.
    destruct (Note.isArchived n) as [[]|], (Note.isDeleted n) as [[]|]; naive_solver.
  - rewrite !listed_spec. unfold selected, active. simpl.
    destruct (Note.isArchived n) as [[]|], (Note.isDeleted n) as [[]|]; naive_solver.
  - intros view Hdel Harc. rewrite !listed_spec. unfold selected.
    rewrite !decide_False by done. simpl. done.
Qed.

Lemma views_partition_witness :
  let default := listed "u1" None sample_notes (7%N, sample_note) in
  let archive := listed "u1" (Some "archive") sample_notes (7%N, sample_note) in
  let deleted := listed "u1" (Some "deleted") sample_notes (7%N, sample_note) in
  (((default ∧ ¬ archive ∧ ¬ deleted) ∨
    (¬ default ∧ archive ∧ ¬ deleted) ∨
    (¬ default ∧ ¬ archive ∧ deleted)) ↔
   Some false = Some true ∨ (Some false = Some false ∧ Some true ≠ None)) ∧
  ((¬ default ∧ ¬ archive ∧ ¬ deleted) ↔
   Some false = None ∨ (Some false = Some false ∧ Some true = None)) ∧
  ∀ view, view ≠ Some "deleted" → view ≠ Some "archive" →
          (listed "u1" view sample_notes (7%N, sample_note) ↔ default).
Proof. apply (views_partition "u1" sample_notes 7%N sample_note); reflexivity. Defined.

Lemma findOneAndUpdate_cases id uid upd (c : NoteCollection) :
  (∃ i n, id = Some i ∧ castable upd = true ∧ c !! i = Some n ∧ Note.userId n = uid ∧
          findOneAndUpdate id uid upd c =
          Some (Some (i, apply_set upd n), <[i := apply_set upd n]> c)) ∨
  findOneAndUpdate id uid upd c = Some (None, c) ∨
  findOneAndUpdate id uid upd c = None.
Proof.
  destruct id as [i|]; [|by right; right].
  destruct (castable upd) eqn:Hcast; [|right; right; by apply findOneAndUpdate_invalid].
  destruct (c !! i) as [n|] eqn:Hc.
  - destruct (decide (Note.userId n = uid)) as [Hu|Hu].
    + left. exists i, n. by rewrite (findOneAndUpdate_owned i uid upd c n).
    + right. left. apply findOneAndUpdate_not_owned; [|done]. right. by exists n.
  - right. left. apply findOneAndUpdate_not_owned; [|done]. by left.
Qed.

Lemma findOneAndDelete_cases id uid (c : NoteCollection) :
  (∃ i n, id = Some i ∧ c !! i = Some n ∧ Note.userId n = uid ∧
          findOneAndDelete id uid c = Some (Some (i, n), delete i c)) ∨
  findOneAndDelete id uid c = Some (None, c) ∨
  findOneAndDelete id uid c = None.
Proof.
  destruct id as [i|]; [|by right; right].
  destruct (c !! i) as [n|] eqn:Hc.
  - destruct (decide (Note.userId n = uid)) as [Hu|Hu].
    + left. exists i, n. split; [done|]. split; [done|]. split; [done|].
      unfold findOneAndDelete. rewrite Hc.
      by apply String.eqb_eq in Hu as ->.
    + right. left. apply findOneAndDelete_not_owned. right. by exists n.
  - right. left. apply findOneAndDelete_not_owned. by left.
Qed.

Lemma new_Note_fresh body uid now n :
  new_Note body uid now = Some n →
  Note.userId n = uid ∧ Note.isPinned n = Some false ∧
  Note.isArchived n = Some false ∧ Note.isDeleted n = Some false.
Proof.
  unfold new_Note.
  destruct (required (Field.value (b_title body)) && required (Field.value (b_content body))
            && required (Some uid)); [|done].
  destruct (cast_courseTag (b_courseTag body)); [|done]. by intros [= <-].
Qed.

Lemma post_notes_cases uid body id now (c : NoteCollection) :
  (∃ n, new_Note body uid now = Some n ∧ c !! id = None ∧ Note.userId n = uid ∧
        post_notes uid body id now c = (Json 201 (id, n), <[id := n]> c)) ∨
  post_notes uid body id now c = (Rejected, c).
Proof.
  unfold post_notes. destruct (new_Note body uid now) as [n|] eqn:Hn; [|by right].
  destruct (c !! id) eqn:Hc; [by right|]. left. exists n. repeat split; try done.
  by apply new_Note_fresh in Hn as [? _].
Qed.

Lemma note_step_others uid (c : NoteCollection) request i :
  request.1 ≠ uid →
  notes_of uid (note_step c request) !! i = notes_of uid c !! i.
Proof.
  destruct request as [uid' req]. simpl. intros Hne. unfold notes_of.
  destruct req as [view tag|body id now|id body|id|id|]; simpl; try done.
  - destruct (post_notes_cases uid' body id now c)
      as [(n & _ & Hfresh & Hu & ->)| ->]; [|done]. simpl.
    rewrite !map_lookup_filter. destruct (decide (i = id)) as [->|Hi].
    + rewrite lookup_insert_eq, Hfresh. simpl. by rewrite option_guard_False by (simpl; congruence).
    + by rewrite lookup_insert_ne.
  - unfold put_note.
    destruct (findOneAndUpdate_cases id uid' (updateFields body) c)
      as [(j & n & _ & _ & Hc & Hu & ->)|[-> | ->]]; [|done|done]. simpl.
    rewrite !map_lookup_filter. destruct (decide (i = j)) as [->|Hi].
    + rewrite lookup_insert_eq, Hc. simpl.
      by rewrite !option_guard_False by (simpl; congruence).
    + by rewrite lookup_insert_ne.
  - unfold delete_note.
    destruct (findOneAndUpdate_cases id uid' (set_isDeleted no_fields true) c)
      as [(j & n & _ & _ & Hc & Hu & ->)|[-> | ->]]; [|done|done]. simpl.
    rewrite !map_lookup_filter. destruct (decide (i = j)) as [->|Hi].
    + rewrite lookup_insert_eq, Hc. simpl.
      by rewrite !option_guard_False by (simpl; congruence).
    + by rewrite lookup_insert_ne.
  - unfold delete_note_permanent.
    destruct (findOneAndDelete_cases id uid' c)
      as [(j & n & _ & Hc & Hu & ->)|[-> | ->]]; [|done|done]. simpl.
    rewrite !map_lookup_filter. destruct (decide (i = j)) as [->|Hi].
    + rewrite lookup_delete_eq, Hc. simpl.
      by rewrite option_guard_False by (simpl; congruence).
    + by rewrite lookup_delete_ne.
Qed.

(** X8.  A user's notes change through that user's requests only: after
    any sequence of note requests of other callers, the notes owned by the
    user are the same, with the same contents, and each view lists for the
    user what it listed before. *)
Theorem notes_isolated (uid : string) (c : NoteCollection)
    (requests : list (string * note_request)) :
  Forall (fun request => request.1 ≠ uid) requests →
  notes_of uid (note_run c requests) = notes_of uid c ∧
  ∀ view d, listed uid view (note_run c requests) d ↔ listed uid view c d.
Proof.
  intros Hothers.
  assert (notes_of uid (note_run c requests) = notes_of uid c) as Hsame.
  { unfold note_run. revert c.
    induction Hothers as [|request requests Hne Hothers IH]; intros c; [done|].
    simpl. rewrite IH. apply map_eq. intros i. by apply note_step_others. }
  split; [done|]. intros view [id n]. rewrite !listed_spec.
  assert (∀ c', c' !! id = Some n ∧ Note.userId n = uid ↔
                notes_of uid c' !! id = Some n) as Hlook.
  { intros c'. unfold notes_of. rewrite map_lookup_filter_Some. simpl. done. }
  pose proof (Hlook c) as H1. pose proof (Hlook (note_run c requests)) as H2.
  rewrite Hsame in H2. naive_solver.
Qed.

Lemma notes_isolated_witness :
  notes_of "u1" (note_run sample_notes
                   [("u2", DeleteNotePermanent (Some 7%N));
                    ("u2", PutNote (Some 7%N) (set_title no_fields "mine"));
                    ("u2", PostNotes (mkNoteBody (Field.Value "t") (Field.Value "c")
                                        Field.Undefined) 8%N 5)])
    = notes_of "u1" sample_notes ∧
  ∀ view d,
    listed "u1" view
      (note_run sample_notes
         [("u2", DeleteNotePermanent (Some 7%N));
          ("u2", PutNote (Some 7%N) (set_title no_fields "mine"));
          ("u2", PostNotes (mkNoteBody (Field.Value "t") (Field.Value "c")
                              Field.Undefined) 8%N 5)]) d
    ↔ listed "u1" view sample_notes d.
Proof.
  apply (notes_isolated "u1" sample_notes). repeat constructor; discriminate.
Defined.

(** X9.  Moving a note to the trash.  For an owned note [DELETE
    /api/notes/:id] answers 204 and only sets [isDeleted]: the note keeps
    its other fields, is then listed in the deleted view and in no other
    view, and every other note is untouched.  For an object id that is not
    stored or not owned it answers 404, for an id that is no object id it
    answers 500, and in both cases it changes nothing. *)
Theorem delete_note_effect (uid : string) (id : oid) (c : NoteCollection) :
  (∀ n, c !! id = Some n → Note.userId n = uid →
        let n' := Note.mk (Note.title n) (Note.content n) (Note.courseTag n)
                    (Note.isPinned n) (Note.isArchived n) (Some true)
                    (Note.userId n) (Note.createdAt n) in
        delete_note uid (Some id) c = (Empty 204, <[id := n']> c) ∧
        listed uid (Some "deleted") (<[id := n']> c) (id, n') ∧
        ¬ listed uid None (<[id := n']> c) (id, n') ∧
        ¬ listed uid (Some "archive") (<[id := n']> c) (id, n')) ∧
  ((c !! id = None ∨ ∃ n, c !! id = Some n ∧ Note.userId n ≠ uid) →
   delete_note uid (Some id) c = (Message 404 "Note not found or access denied", c)) ∧
  delete_note uid None c = (Message 500 "Deletion error", c).
Proof.
  split; [|split; [|done]].
  - intros n Hc Hu. cbv zeta. unfold delete_note.
    rewrite (findOneAndUpdate_owned _ _ _ _ n Hc Hu) by done. split; [done|].
    rewrite !listed_spec, lookup_insert_eq. unfold selected, active. simpl.
    naive_solver.
  - intros Hno. unfold delete_note. by rewrite findOneAndUpdate_not_owned.
Qed.

(** X10.  Permanent deletion does not look at the state flags: for an
    owned note, in the trash or not, [DELETE /api/notes/:id/permanent]
    answers 204 and removes the note, which is then listed in no view and
    unknown to a later update (404, or 400 when the payload does not
    cast); every other note is untouched. *)
Theorem delete_note_permanent_effect
    (uid : string) (id : oid) (c : NoteCollection) (n : Note.t) :
  c !! id = Some n → Note.userId n = uid →
  delete_note_permanent uid (Some id) c = (Empty 204, delete id c) ∧
  delete id c !! id = None ∧
  (∀ id', id' ≠ id → delete id c !! id' = c !! id') ∧
  (∀ view n', ¬ listed uid view (delete id c) (id, n')) ∧
  (∀ body, put_note uid (Some id) body (delete id c)
           = (if castable body then Message 404 "Note not found or access denied"
              else Message 400 "Update error", delete id c)).
Proof.
  intros Hc Hu. split; [|split; [|split; [|split]]].
  - unfold delete_note_permanent, findOneAndDelete. rewrite Hc.
    by apply String.eqb_eq in Hu as ->.
  - apply lookup_delete_eq.
  - intros id' Hne. by apply lookup_delete_ne.
  - intros view n'. rewrite listed_spec, lookup_delete_eq. naive_solver.
  - intros body. unfold put_note. rewrite updateFields_id.
    destruct (castable body) eqn:Hcast.
    + rewrite findOneAndUpdate_not_owned; [done| |done]. left. apply lookup_delete_eq.
    + by rewrite findOneAndUpdate_invalid.
Qed.

Lemma delete_note_permanent_effect_witness :
  delete_note_permanent "u1" (Some 7%N) sample_notes = (Empty 204, delete 7%N sample_notes) ∧
  delete 7%N sample_notes !! 7%N = None ∧
  (∀ id', id' ≠ 7%N → delete 7%N sample_notes !! id' = sample_notes !! id') ∧
  (∀ view n', ¬ listed "u1" view (delete 7%N sample_notes) (7%N, n')) ∧
  (∀ body, put_note "u1" (Some 7%N) body (delete 7%N sample_notes)
           = (if castable body then Message 404 "Note not found or access denied"
              else Message 400 "Update error", delete 7%N sample_notes)).
Proof.
  apply (delete_note_permanent_effect "u1" 7%N sample_notes sample_note); reflexivity.
Defined.

(** X11.  Creation never overwrites.  [POST /api/notes] either stores
    nothing, or stores one new note of the caller under an id that was not
    in use; in both cases every note stored before is still stored
    unchanged.  A note that was created is listed in the default view and
    in no other, and its tag, when not empty, is among the caller's
    tags. *)
Theorem post_notes_effect
    (uid : string) (body : NoteBody) (id : oid) (now : Z) (c : NoteCollection) :
  let c' := (post_notes uid body id now c).2 in
  (∀ id' n', c !! id' = Some n' → c' !! id' = Some n') ∧
  (c' = c ∨
   ∃ n, post_notes uid body id now c = (Json 201 (id, n), <[id := n]> c) ∧
        c !! id = None ∧ Note.userId n = uid ∧
        listed uid None c' (id, n) ∧
        ¬ listed uid (Some "archive") c' (id, n) ∧
        ¬ listed uid (Some "deleted") c' (id, n) ∧
        ∀ tag, Note.courseTag n = Some tag → tag ≠ "" →
               ∃ tags, get_tags uid c' = Json 200 tags ∧ tag ∈ tags).
Proof.
  cbv zeta.
  destruct (post_notes_cases uid body id now c)
    as [(n & Hn & Hfresh & Hu & ->)| ->]; simpl; [|by auto].
  split.
  { intros id' n' Hc. rewrite lookup_insert_ne; [done|]. congruence. }
  right. exists n. split; [done|]. split; [done|]. split; [done|].
  apply new_Note_fresh in Hn as (_ & _ & Ha & Hd).
  rewrite !listed_spec, lookup_insert_eq. unfold selected, active. simpl.
  rewrite Ha, Hd. split; [done|]. split; [naive_solver|]. split; [naive_solver|].
  intros tag Htag Hne. eexists. split; [reflexivity|].
  apply elem_of_filter_Boolean. split; [done|]. unfold distinct_courseTag.
  rewrite elem_of_remove_dups, list_elem_of_fmap. exists (id, n). split; [done|].
  apply elem_of_find. rewrite lookup_insert_eq. split; [done|].
  apply matches_spec. simpl. naive_solver.
Qed.

Lemma elem_of_get_tags uid (c : NoteCollection) t :
  t ∈ filter_Boolean
        (distinct_courseTag
           {| f_userId := uid; f_isDeleted := Some false;
              f_isArchived := Some false; f_courseTag := None |} c) ↔
  t ≠ "" ∧ ∃ id n, c !! id = Some n ∧ Note.userId n = uid ∧ active n ∧
                   Note.courseTag n = Some t.
Proof.
  rewrite elem_of_filter_Boolean. unfold distinct_courseTag, active.
  rewrite elem_of_remove_dups, list_elem_of_fmap. split.
  - intros (Hne & [id n] & Htag & Hin). split; [done|].
    apply elem_of_find in Hin as [Hc Hm]. apply matches_spec in Hm. simpl in *.
    exists id, n. naive_solver.
  - intros (Hne & id & n & Hc & Hu & [Ha Hd] & Htag). split; [done|].
    exists (id, n). split; [done|]. apply elem_of_find. split; [done|].
    apply matches_spec. simpl. naive_solver.
Qed.

(** X12.  The tag list and the tag filter agree up to the white space
    around the given tag: the trimmed text of a [courseTag] is among the
    tags [GET /api/tags] gives a user exactly when it is not empty and
    [GET /api/notes] with that [courseTag] (and no view) lists at least
    one note for the user. *)
Theorem tags_match_tag_filter (uid : string) (c : NoteCollection) (t : string) :
  (∃ tags, get_tags uid c = Json 200 tags ∧ JS.trim t ∈ tags) ↔
  JS.trim t ≠ "" ∧ ∃ notes, get_notes uid None (Some t) c = Json 200 notes ∧ notes ≠ [].
Proof.
  destruct (decide (t = "")) as [->|Ht].
  { split.
    - intros (tags & Htags & Hin). unfold get_tags in Htags. simplify_eq.
      by apply elem_of_get_tags in Hin as [Hne _].
    - by intros [Hne _]. }
  split.
  - intros (tags & Htags & Hin). unfold get_tags in Htags. simplify_eq.
    apply elem_of_get_tags in Hin as (Hne & id & n & Hc & Hu & Ha & Htag).
    split; [done|]. eexists. split; [reflexivity|].
    assert ((id, n) ∈ sort (find (notes_filter uid None (Some t)) c)) as Hin.
    { apply elem_of_get_notes. unfold selected. simpl.
      rewrite decide_False by done. done. }
    intros Hnil. rewrite Hnil in Hin. by apply elem_of_nil in Hin.
  - intros (Hne & notes & Hnotes & Hnonempty). unfold get_notes in Hnotes.
    simplify_eq. eexists. split; [reflexivity|].
    destruct (sort (find (notes_filter uid None (Some t)) c)) as [|[id n] notes] eqn:Hs;
      [done|].
    assert ((id, n) ∈ sort (find (notes_filter uid None (Some t)) c)) as Hin
      by (rewrite Hs; left).
    apply elem_of_get_notes in Hin as (Hc & Hu & Hsel). unfold selected in Hsel.
    simpl in Hsel. rewrite decide_False in Hsel by done.
    apply elem_of_get_tags. naive_solver.
Qed.

(** X13.  Creation and permanent deletion round-trip: permanently deleting
    the note that [POST /api/notes] has just created, by the same caller,
    answers 204 and gives back the collection as it was before the
    creation. *)
Theorem post_then_delete_note_permanent
    (uid : string) (body : NoteBody) (id : oid) (now : Z)
    (c c' : NoteCollection) (n : Note.t) :
  post_notes uid body id now c = (Json 201 (id, n), c') →
  delete_note_permanent uid (Some id) c' = (Empty 204, c).
Proof.
  intros Hpost.
  destruct (post_notes_cases uid body id now c)
    as [(n' & _ & Hfresh & Hu & Heq)|Heq]; rewrite Heq in Hpost; [|done].
  simplify_eq. unfold delete_note_permanent, findOneAndDelete.
  rewrite lookup_insert_eq, String.eqb_refl. by rewrite delete_insert_id.
Qed.

Lemma post_then_delete_note_permanent_witness :
  delete_note_permanent "u1" (Some 3%N)
    (<[3%N := Note.mk (Some "Limits") (Some "epsilon") (Some "General")
                (Some false) (Some false) (Some false) "u1" 5]> ∅)
  = (Empty 204, ∅).
Proof.
  apply (post_then_delete_note_permanent "u1"
           (mkNoteBody (Field.Value "Limits") (Field.Value "epsilon") Field.Undefined)
           3%N 5 ∅ _
           (Note.mk (Some "Limits") (Some "epsilon") (Some "General")
              (Some false) (Some false) (Some false) "u1" 5)).
  reflexivity.
Defined.



(** ** Idempotent updates *)

Lemma set_path_idemp {A} (set : A → A) stored (f : Field.t A) :
  set_path set (set_path set stored f) f = set_path set stored f.
Proof. by destruct f. Qed.

Lemma apply_set_idemp upd n : apply_set upd (apply_set upd n) = apply_set upd n.
Proof. unfold apply_set. simpl. by rewrite !set_path_idemp. Qed.

(** X15.  Updates are idempotent: sending the same [PUT /api/notes/:id]
    a second time gives the same answer as the first time and leaves the
    collection as the first one left it. *)
Theorem put_note_idempotent
    (uid : string) (id : option oid) (body : NoteFields) (c : NoteCollection) :
  put_note uid id body (put_note uid id body c).2 = put_note uid id body c.
Proof.
  unfold put_note.
  destruct (findOneAndUpdate_cases id uid (updateFields body) c)
    as [(i & n & -> & Hcast & Hc & Hu & ->)|[Hno | Hno]]; cbn [snd].
  - rewrite (findOneAndUpdate_owned i uid _ _ (apply_set (updateFields body) n));
      [|apply lookup_insert_eq|done|done].
    by rewrite apply_set_idemp, insert_insert_eq.
  - rewrite Hno. cbn [snd]. by rewrite Hno.
  - rewrite Hno. cbn [snd]. by rewrite Hno.
Qed.

(** ** Authentication *)

Lemma split_cons_sep sep (s rest : string) :
  occurs sep s = false → split sep (s ++ String sep rest) = s :: split sep rest.
Proof.
  induction s as [|a s IH]; simpl.
  - intros _. by rewrite Ascii.eqb_refl.
  - intros [Ha Hs]%orb_false_iff. rewrite Ha, (IH Hs). done.
Qed.

Lemma split_no_sep sep (s : string) : occurs sep s = false → split sep s = [s].
Proof.
  induction s as [|a s IH]; simpl; [done|].
  intros [Ha Hs]%orb_false_iff. by rewrite Ha, (IH Hs).
Qed.

(** X16.  A handler behind the middleware runs only for a verified
    identity: whenever the middleware lets a handler run, the request
    carried an [Authorization] header whose second space-separated piece
    is a non-empty token, Supabase resolved that token to a user, and the
    handler ran with that user's id.  In particular a cookie never
    authenticates a request. *)
Theorem api_handled_only_verified {A : Type}
    (authorization cookieToken : option string)
    (getUser : string → option SupabaseUser.t) (handler : string → A) (result : A) :
  api authorization cookieToken getUser handler = Handled result →
  ∃ header token user,
    authorization = Some header ∧ split " " header !! 1%nat = Some token ∧
    token ≠ "" ∧ getUser token = Some user ∧
    result = handler (SupabaseUser.id user).
Proof.
  unfold api, authMiddleware.
  destruct authorization as [header|]; simpl.
  - destruct (split " " header !! 1%nat) as [token|] eqn:Htoken; simpl.
    + destruct (String.eqb_spec token "") as [->|Hne]; simpl.
      * destruct (JS.Boolean cookieToken); done.
      * destruct (getUser token) as [user|] eqn:Huser; [|done].
        intros [= <-]. by exists header, token, user.
    + destruct (JS.Boolean cookieToken); done.
  - destruct (JS.Boolean cookieToken); done.
Qed.

Lemma api_handled_only_verified_witness :
  ∃ header token user,
    Some "Bearer abc" = Some header ∧ split " " header !! 1%nat = Some token ∧
    token ≠ "" ∧
    (fun t => if String.eqb t "abc" then Some (SupabaseUser.mk "u1" "a@b.c") else None)
      token = Some user ∧
    7 = (fun uid => String.length uid + 5) (SupabaseUser.id user).
Proof.
  apply (api_handled_only_verified (Some "Bearer abc") None
           (fun t => if String.eqb t "abc" then Some (SupabaseUser.mk "u1" "a@b.c") else None)
           (fun uid => String.length uid + 5) 7).
  reflexivity.
Defined.

(** X17.  The middleware does not look at the scheme of the header: for
    any header made of a first word, one space and a non-empty token
    without spaces, whatever the first word and whatever the cookie, the
    request is passed on with the user Supabase resolves from the token,
    and refused with ["Invalid token."] when Supabase resolves none. *)
Theorem authMiddleware_any_scheme
    (scheme token : string) (cookieToken : option string)
    (getUser : string → option SupabaseUser.t) :
  occurs " " scheme = false → occurs " " token = false → token ≠ "" →
  authMiddleware (Some (scheme ++ String " " token)) cookieToken getUser =
  match getUser token with
  | Some user => Next (Some (scheme ++ String " " token)) (Some user)
  | None => Unauthorized "Invalid token."
  end.
Proof.
  intros Hscheme Htoken Hne. unfold authMiddleware. simpl.
  rewrite (split_cons_sep " " scheme token Hscheme), (split_no_sep " " token Htoken).
  simpl. by apply String.eqb_neq in Hne as ->.
Qed.

Lemma authMiddleware_any_scheme_witness :
  authMiddleware (Some ("Basic" ++ String " " "abc")) (Some "cookie")
    (fun t => if String.eqb t "abc" then Some (SupabaseUser.mk "u1" "a@b.c") else None) =
  match (fun t => if String.eqb t "abc" then Some (SupabaseUser.mk "u1" "a@b.c") else None) "abc" with
  | Some user => Next (Some ("Basic" ++ String " " "abc")) (Some user)
  | None => Unauthorized "Invalid token."
  end.
Proof.
  apply (authMiddleware_any_scheme "Basic" "abc" (Some "cookie")); [reflexivity|reflexivity|discriminate].
Defined.

(** X18.  Without a token in the header (no header, or a header without a
    second piece, or with an empty one) Supabase is not asked: the request
    is refused with ["No token provided."] unless it carries a non-empty
    auth cookie, in which case it is passed on with the cookie as bearer
    header but without a user, so that no handler serves it. *)
Theorem authMiddleware_without_token
    (authorization cookieToken : option string)
    (getUser : string → option SupabaseUser.t) :
  (authorization ≫= (fun h => split " " h !! 1%nat)) ∈ [None; Some ""] →
  authMiddleware authorization cookieToken getUser =
    match cookieToken with
    | Some cookie =>
        if decide (cookie = "") then Unauthorized "No token provided."
        else Next (Some ("Bearer " ++ cookie)) None
    | None => Unauthorized "No token provided."
    end ∧
  ∀ A (handler : string → A) result,
    api authorization cookieToken getUser handler ≠ Handled result.
Proof.
  intros Htoken.
  assert (authMiddleware authorization cookieToken getUser =
          match cookieToken with
          | Some cookie =>
              if decide (cookie = "") then Unauthorized "No token provided."
              else Next (Some ("Bearer " ++ cookie)) None
          | None => Unauthorized "No token provided."
          end) as Heq.
  { unfold authMiddleware.
    assert (JS.Boolean (authorization ≫= (fun h => split " " h !! 1%nat)) = false) as ->.
    { apply elem_of_cons in Htoken as [->|Htoken]; [done|].
      apply elem_of_cons in Htoken as [->|Htoken]; [done|]. by apply elem_of_nil in Htoken. }
    simpl. destruct cookieToken as [cookie|]; simpl; [|done].
    destruct (decide (cookie = "")) as [->|Hne]; [done|].
    by apply String.eqb_neq in Hne as ->. }
  split; [exact Heq|]. intros A handler result. unfold api. rewrite Heq.
  destruct cookieToken as [cookie|]; [|done]. by destruct (decide (cookie = "")).
Qed.

Lemma authMiddleware_without_token_witness :
  authMiddleware (Some "Bearer") (Some "cookie") (fun _ => Some (SupabaseUser.mk "u1" "a@b.c")) =
    Next (Some ("Bearer " ++ "cookie")) None ∧
  ∀ A (handler : string → A) result,
    api (Some "Bearer") (Some "cookie") (fun _ => Some (SupabaseUser.mk "u1" "a@b.c")) handler
    ≠ Handled result.
Proof.
  apply (authMiddleware_without_token (Some "Bearer") (Some "cookie")). by left.
Defined.

(** ** The Supabase routes *)

(** X19.  Every query a Supabase route sends is scoped to the caller: an
    inserted row carries the caller's [user_id], every selection, update
    and deletion filters on the caller's [user_id], and an update never
    writes the [user_id] column.  The routes other than the listings also
    filter a stored row by the [id] of the URL. *)
Theorem supabase_queries_scoped {D : Type}
    (user_id : string) (request : supabase_request) (q : query) (k : awaited D → reply D) :
  supabase_route user_id request = Await q k →
  scoped user_id q ∧
  match request, q with
  | DeleteReminder id, DeleteFrom _ eqs
  | DeleteSleepSession id, DeleteFrom _ eqs
  | DeleteTask id, DeleteFrom _ eqs
  | PutTask id _, UpdateIn _ _ eqs => column "id" eqs = Some (Val.Str id)
  | _, _ => True
  end.
Proof.
  destruct request; simpl;
    unfold post_reminders, get_reminders, delete_reminder, post_sleepSessions,
      get_sleepSessions, delete_sleepSession, post_tasks, get_tasks, put_task,
      delete_task;
    repeat match goal with
    | |- context [if ?b then _ else _] => destruct b
    end;
    intros Heq; simplify_eq; simpl; done.
Qed.

Lemma supabase_queries_scoped_witness :
  scoped "u1"
    (UpdateIn "tasks"
       [("title", Val.Str "Read"); ("description", Val.Undefined);
        ("category", Val.Str "Study"); ("priority_level", Val.Number 2)]
       [("id", Val.Str "42"); ("user_id", Val.Str "u1")]) ∧
  column "id" [("id", Val.Str "42"); ("user_id", Val.Str "u1")] = Some (Val.Str "42").
Proof.
  exact (supabase_queries_scoped (D := unit) "u1"
           (PutTask "42" (mkTaskBody (Val.Str "Read") Val.Undefined (Val.Str "Study")
                            (Val.Number 2)))
           _ _ eq_refl).
Defined.

(** X20.  No write goes through with a checked field missing.  Whenever a
    route inserts or updates a row, every column the route checks (name
    and reminder_time; sleep_date, bed_time, wakeup_time and duration_str;
    title, category and priority_level) holds in the row the value the
    body gives the field of that name, and that value is truthy; so with
    an [undefined], [null], [false], zero, NaN or empty value in one of
    them no row is written.  A route that sends no query answers 400. *)
Theorem supabase_checked_columns {D : Type}
    (user_id : string) (request : supabase_request) :
  match @supabase_route D user_id request with
  | Await (InsertInto table row) _ | Await (UpdateIn table row _) _ =>
      ∀ name, name ∈ checked_columns table →
              column name row = Some (body_field request name) ∧
              Val.truthy (body_field request name) = true
  | Await _ _ => True
  | Answer r => ∃ message, r = ErrorReply 400 message
  end.
Proof.
  destruct request; simpl;
    unfold post_reminders, get_reminders, delete_reminder, post_sleepSessions,
      get_sleepSessions, delete_sleepSession, post_tasks, get_tasks, put_task,
      delete_task; try done.
  - destruct (Val.truthy reminder_time) eqn:?, (Val.truthy name) eqn:?; simpl; eauto.
    intros col Hcol. repeat (apply elem_of_cons in Hcol as [->|Hcol]; [simpl; eauto|]).
    by apply elem_of_nil in Hcol.
  - destruct (Val.truthy (sleep_date body)) eqn:?, (Val.truthy (bed_time body)) eqn:?,
      (Val.truthy (wakeup_time body)) eqn:?, (Val.truthy (duration_str body)) eqn:?;
      simpl; eauto.
    intros col Hcol. repeat (apply elem_of_cons in Hcol as [->|Hcol]; [simpl; eauto|]).
    by apply elem_of_nil in Hcol.
  - destruct (negb _); eauto.
  - destruct (Val.truthy (t_title body)) eqn:?, (Val.truthy (t_category body)) eqn:?,
      (Val.truthy (t_priority_level body)) eqn:?; simpl; eauto.
    intros col Hcol. repeat (apply elem_of_cons in Hcol as [->|Hcol]; [simpl; eauto|]).
    by apply elem_of_nil in Hcol.
  - destruct (Val.truthy (t_title body)) eqn:?, (Val.truthy (t_category body)) eqn:?,
      (Val.truthy (t_priority_level body)) eqn:?; simpl; eauto.
    intros col Hcol. repeat (apply elem_of_cons in Hcol as [->|Hcol]; [simpl; eauto|]).
    by apply elem_of_nil in Hcol.
  - destruct (negb _); eauto.
Qed.

(** X21.  The sleep quality of a session is never stored: [POST
    /api/sleepSessions] reads [sleep_quality] from the body and does
    nothing with it; whatever its value, the route sends the same query and
    answers the same, and the row it inserts has no such column. *)
Theorem sleep_quality_dropped {D : Type}
    (user_id : string) (body : SleepBody) (quality : Val.t) :
  @post_sleepSessions D user_id body =
  post_sleepSessions user_id
    (mkSleepBody (sleep_date body) (bed_time body) (wakeup_time body)
       (duration_str body) (interruption_note body) (dreams_note body) quality) ∧
  ∀ table row k, @post_sleepSessions D user_id body = Await (InsertInto table row) k →
                 column "sleep_quality" row = None.
Proof.
  split; [done|]. unfold post_sleepSessions. intros table row k.
  destruct (_ || _); [done|]. by intros [= <- <- <-].
Qed.

(** X22.  The reminders listing never sends the reminders: whatever the
    query gives, [GET /api/reminders] answers 500 with the message of the
    error or, when there is no error, throws where it should answer; the
    listings of sleep sessions and of tasks answer 200 with the rows. *)
Theorem get_reminders_never_answers {D : Type} (user_id : string) :
  ∃ q k,
    @get_reminders D user_id = Await q k ∧
    (∀ result status data, k result ≠ DataReply status data) ∧
    (∀ data, k (Resolved data None) = Throws) ∧
    ∃ q1 k1 q2 k2,
      @get_sleepSessions D user_id = Await q1 k1 ∧
      @get_tasks D user_id = Await q2 k2 ∧
      ∀ data, k1 (Resolved data None) = DataReply 200 data ∧
              k2 (Resolved data None) = DataReply 200 data.
Proof.
  eexists _, _. split; [reflexivity|]. split; [|split; [done|]].
  - by intros [data [message|]|] status data'.
  - eexists _, _, _, _. by repeat split.
Qed.
